(** * The virtual clock of [oasis/clock/virtual_clock.py]

    A shallow embedding of the [VirtualClock] dataclass: its tick counter,
    the per-(tick, agent) event counter, the per-tick set of used
    timestamps, timestamp synthesis ([event_time]) with its causality guard
    and uniqueness probe, and the conversion between virtual seconds and
    datetimes. *)

From stdpp Require Import gmap strings list.
From Stdlib Require Import ZArith Lia.

Local Open Scope Z_scope.

(** ** Python values the clock relies on *)

(** The exceptions the modelled code can raise. *)
Inductive exn : Set :=
| TypeError      (* [None + 1] *)
| OverflowError. (* a timedelta or datetime out of range *)

(** The result of a call: a returned value or a raised exception. *)
Inductive outcome (A : Type) : Type :=
| Returns (a : A)
| Raises (e : exn).
Arguments Returns {A} a.
Arguments Raises {A} e.

#[global] Instance outcome_ret : MRet outcome := @Returns.
#[global] Instance outcome_bind : MBind outcome := fun A B k m =>
  match m with
  | Returns a => k a
  | Raises e => Raises e
  end.

#[global] Instance outcome_fmap : FMap outcome := fun A B f m =>
  match m with
  | Returns a => Returns (f a)
  | Raises e => Raises e
  end.

(** [random.Random(seed)]: a generator object, determined by the seed it was
    created from as long as nothing is drawn from it. *)
Inductive Random : Set := mkRandom (seed : Z).

(** The two builtins [event_time] calls: [hash] on the 5-tuple
    [(seed, tick, agent_id, action_hint, event_index)] and
    [random.Random(local_seed).randint(a, b)].  Within one interpreter
    process both are functions of their arguments; [randint a b] returns an
    integer of the inclusive range when [a <= b]. *)
Class PyRuntime : Type := {
  py_hash : Z * Z * Z * string * Z -> Z;
  py_randint : Z -> Z -> Z -> Z;
  py_randint_range : forall local_seed a b,
      a <= b -> a <= py_randint local_seed a b <= b
}.

(** ** Datetimes, timedeltas and float division *)

(** A naive [datetime], as the number of microseconds since [datetime.min]
    (0001-01-01 00:00:00); the proleptic Gregorian calendar puts the valid
    datetimes in bijection with [0 <= dt_us < datetime_limit]. *)
Record datetime : Set := mkDatetime { dt_us : Z }.

(** [datetime.max] is 9999-12-31 23:59:59.999999, the last microsecond of
    day 3652059. *)
Definition datetime_limit : Z := 3652059 * 86400 * 1000000.

Definition valid_datetime (d : datetime) : Prop :=
  0 <= dt_us d < datetime_limit.

(** A [timedelta], normalised as Python stores it:
    [0 <= seconds < 86400] and [0 <= microseconds < 1000000]. *)
Record timedelta : Set := mkTimedelta {
  days : Z;
  seconds : Z;
  microseconds : Z
}.

(** The microseconds a timedelta stands for. *)
Definition td_us (td : timedelta) : Z :=
  (days td * 86400 + seconds td) * 1000000 + microseconds td.

(** Normalisation of a number of microseconds into a timedelta. *)
Definition timedelta_of_us (us : Z) : timedelta :=
  {| days := us / 1000000 / 86400;
     seconds := (us / 1000000) mod 86400;
     microseconds := us mod 1000000 |}.

(** [timedelta(seconds=s)] for an integer [s]: more than 999999999 days in
    either direction is an [OverflowError]. *)
Definition timedelta_seconds (s : Z) : outcome timedelta :=
  let td := timedelta_of_us (s * 1000000) in
  if (days td <? -999999999) || (999999999 <? days td)
  then Raises OverflowError
  else Returns td.

(** [d + td]: an [OverflowError] when the sum leaves the datetime range. *)
Definition datetime_add (d : datetime) (td : timedelta) : outcome datetime :=
  let us := dt_us d + td_us td in
  if (us <? 0) || (datetime_limit <=? us)
  then Raises OverflowError
  else Returns (mkDatetime us).

(** [d1 - d2] for naive datetimes. *)
Definition datetime_sub (d1 d2 : datetime) : timedelta :=
  timedelta_of_us (dt_us d1 - dt_us d2).

(** A finite binary64 value, [fmant * 2 ^ fexp]. *)
Record float : Set := mkFloat { fmant : Z; fexp : Z }.

(** The integer nearest to [a / b] for [0 <= a] and [0 < b], ties to even. *)
Definition round_half_even (a b : Z) : Z :=
  let q := a / b in
  match 2 * (a mod b) ?= b with
  | Lt => q
  | Gt => q + 1
  | Eq => if Z.even q then q else q + 1
  end.

(** [floor (log2 (a / d))] for [0 < a] and [0 < d]. *)
Definition log2_quotient (a d : Z) : Z :=
  let k := Z.log2 a - Z.log2 d in
  if (if 0 <=? k then d * 2 ^ k <=? a else d <=? a * 2 ^ (- k))
  then k else k - 1.

(** [n / d] on Python integers with [0 < d]: the binary64 nearest to the
    exact quotient (53 significant bits, ties to even).  The quotients met
    here are those of [total_seconds], of magnitude between [10^-6] and
    [2^67], so neither subnormals nor overflow occur. *)
Definition truediv (n d : Z) : float :=
  if n =? 0 then mkFloat 0 0
  else
    let a := Z.abs n in
    let e := log2_quotient a d - 52 in
    let m := if 0 <=? e then round_half_even a (d * 2 ^ e)
             else round_half_even (a * 2 ^ (- e)) d in
    mkFloat (Z.sgn n * m) e.

(** [int(x)] on a float: truncation toward zero. *)
Definition int_of_float (x : float) : Z :=
  if 0 <=? fexp x then fmant x * 2 ^ fexp x
  else Z.quot (fmant x) (2 ^ (- fexp x)).

(** [td.total_seconds()] *)
Definition total_seconds (td : timedelta) : float :=
  truediv ((days td * 86400 + seconds td) * 10 ^ 6 + microseconds td) (10 ^ 6).

(** ** The clock *)

Record VirtualClock : Type := mkVirtualClock {
  tick_duration_s : Z;
  epoch : datetime;
  seed : Z;
  tick : Z;
  _rng : option Random;
  _event_counter : gmap (Z * Z) Z;
  _used_times : gmap Z (gset Z)
}.

(** [__post_init__] *)
Definition post_init (self : VirtualClock) : VirtualClock :=
  {| tick_duration_s := tick_duration_s self;
     epoch := epoch self;
     seed := seed self;
     tick := tick self;
     _rng := Some (mkRandom (seed self));
     _event_counter := ∅;
     _used_times := ∅ |}.

(** The dataclass constructor: the four init fields, then [__post_init__]. *)
Definition new (tick_duration_s : Z) (epoch : datetime) (seed : Z) (tick : Z)
  : VirtualClock :=
  post_init {| tick_duration_s := tick_duration_s; epoch := epoch;
               seed := seed; tick := tick; _rng := None;
               _event_counter := ∅; _used_times := ∅ |}.

(** [advance_tick]: no check on [n]; nothing in it can raise. *)
Definition advance_tick (self : VirtualClock) (n : Z) : outcome VirtualClock :=
  Returns {| tick_duration_s := tick_duration_s self;
             epoch := epoch self;
             seed := seed self;
             tick := tick self + n;
             _rng := _rng self;
             _event_counter := ∅;
             _used_times := _used_times self |}.

Definition tick_start_s (self : VirtualClock) : Z :=
  tick self * tick_duration_s self.

Definition tick_end_s (self : VirtualClock) : Z :=
  (tick self + 1) * tick_duration_s self - 1.

(** [to_datetime] *)
Definition to_datetime (self : VirtualClock) (virtual_time_s : Z)
  : outcome datetime :=
  td ← timedelta_seconds virtual_time_s;
  datetime_add (epoch self) td.

(** [from_datetime] *)
Definition from_datetime (self : VirtualClock) (dt : datetime) : Z :=
  let delta := datetime_sub dt (epoch self) in
  int_of_float (total_seconds delta).

(** The uniqueness loop of [event_time]:
    [while generated_time in used and attempts < max_attempts].
    [fuel] bounds the number of iterations run; the result is the pair
    [(generated_time, attempts)] reached. *)
Fixpoint probe (fuel : nat) (used : gset Z) (min_time max_time max_attempts : Z)
    (generated_time attempts : Z) : Z * Z :=
  match fuel with
  | O => (generated_time, attempts)
  | S fuel' =>
      if bool_decide (generated_time ∈ used) && (attempts <? max_attempts) then
        let generated_time := generated_time + 1 in
        let generated_time :=
          if max_time <? generated_time then min_time else generated_time in
        probe fuel' used min_time max_time max_attempts
              generated_time (attempts + 1)
      else (generated_time, attempts)
  end.

(** The guard of the loop. *)
Definition probe_guard (used : gset Z) (max_attempts : Z) (st : Z * Z) : bool :=
  bool_decide (st.1 ∈ used) && (st.2 <? max_attempts).

Definition min_time_of (self : VirtualClock) (parent_time : option Z) : Z :=
  match parent_time with
  | Some p => p + 1
  | None => tick_start_s self
  end.

(** The set [self._used_times.setdefault(self.tick, set())]. *)
Definition used_of (self : VirtualClock) : gset Z :=
  default ∅ (_used_times self !! tick self).

Definition event_index_of (self : VirtualClock) (agent_id : Z) : Z :=
  default 0 (_event_counter self !! (tick self, agent_id)).

(** The used set the clock holds for tick [t]. *)
Definition used_at (self : VirtualClock) (t : Z) : gset Z :=
  default ∅ (_used_times self !! t).

(** The candidate after [generated_time] in the probe: one more, wrapping
    from [max_time] to [min_time]. *)
Definition next_candidate (min_time max_time generated_time : Z) : Z :=
  if max_time <? generated_time + 1 then min_time else generated_time + 1.

(** The valid range of a call has no free value left. *)
Definition range_full (used : gset Z) (min_time max_time : Z) : Prop :=
  forall x, min_time <= x <= max_time -> x ∈ used.

Section EventTime.
Context {rt : PyRuntime}.

(** [event_time]: the returned timestamp and the clock after the call. *)
Definition event_time (self : VirtualClock) (agent_id : Z)
    (parent_time : option Z) (action_hint : string)
  : outcome (Z * VirtualClock) :=
  let tick_start := tick_start_s self in
  let tick_end := tick_end_s self in
  let min_time :=
    match parent_time with
    | Some p => p + 1
    | None => tick_start
    end in
  let max_time := tick_end in
  if max_time <? min_time then
    (* [return parent_time + 1] *)
    match parent_time with
    | Some p => Returns (p + 1, self)
    | None => Raises TypeError
    end
  else
    let event_key := (tick self, agent_id) in
    let event_index := default 0 (_event_counter self !! event_key) in
    let event_counter' := <[event_key := event_index + 1]> (_event_counter self) in
    let local_seed :=
      py_hash (seed self, tick self, agent_id, action_hint, event_index) in
    let generated_time := py_randint local_seed min_time max_time in
    let used := default ∅ (_used_times self !! tick self) in
    let max_attempts := max_time - min_time + 1 in
    let generated_time :=
      (probe (Z.to_nat max_attempts) used min_time max_time max_attempts
             generated_time 0).1 in
    Returns (generated_time,
             {| tick_duration_s := tick_duration_s self;
                epoch := epoch self;
                seed := seed self;
                tick := tick self;
                _rng := _rng self;
                _event_counter := event_counter';
                _used_times :=
                  <[tick self := {[generated_time]} ∪ used]> (_used_times self) |}).

End EventTime.

(** ** Sequences of calls *)

(** The calls a simulation driver makes on a clock. *)
Inductive call : Type :=
| AdvanceTick (n : Z)
| EventTime (agent_id : Z) (parent_time : option Z) (action_hint : string).

(** Whether [event_time] returns through the parent-overflow branch. *)
Definition overflows (self : VirtualClock) (parent_time : option Z) : bool :=
  tick_end_s self <? min_time_of self parent_time.

(** What one [event_time] call did: the tick it ran in, its parent, whether
    it took the overflow branch, whether the value it returned was already
    in the tick's used set (the probe gave up), and the returned value. *)
Record event : Type := mkEvent {
  ev_tick : Z;
  ev_parent : option Z;
  ev_overflow : bool;
  ev_collides : bool;
  ev_result : Z
}.

Section Run.
Context {rt : PyRuntime}.

Definition event_of (self : VirtualClock) (parent_time : option Z) (r : Z)
  : event :=
  {| ev_tick := tick self;
     ev_parent := parent_time;
     ev_overflow := overflows self parent_time;
     ev_collides :=
       negb (overflows self parent_time) && bool_decide (r ∈ used_of self);
     ev_result := r |}.

(** One call: its outcome (the timestamp for [event_time], nothing for
    [advance_tick]) and the clock afterwards.  A raised exception leaves the
    clock as it was: [event_time] raises before it writes anything. *)
Definition step (self : VirtualClock) (c : call)
  : outcome (option Z) * VirtualClock :=
  match c with
  | AdvanceTick n =>
      match advance_tick self n with
      | Returns self' => (Returns None, self')
      | Raises e => (Raises e, self)
      end
  | EventTime agent_id parent_time action_hint =>
      match event_time self agent_id parent_time action_hint with
      | Returns (r, self') => (Returns (Some r), self')
      | Raises e => (Raises e, self)
      end
  end.

(** The outcomes of a sequence of calls, in order, and the final clock. *)
Fixpoint run (self : VirtualClock) (calls : list call)
  : list (outcome (option Z)) * VirtualClock :=
  match calls with
  | [] => ([], self)
  | c :: calls' =>
      let '(o, self') := step self c in
      let '(os, self'') := run self' calls' in
      (o :: os, self'')
  end.

(** The event of the first call of a sequence, when it is an [event_time]
    call that returns. *)
Definition head_events (self : VirtualClock) (c : call) : list event :=
  match c with
  | EventTime agent_id parent_time action_hint =>
      match event_time self agent_id parent_time action_hint with
      | Returns (r, _) => [event_of self parent_time r]
      | Raises _ => []
      end
  | AdvanceTick _ => []
  end.

(** The [event_time] calls of a sequence that returned, in order. *)
Fixpoint trace (self : VirtualClock) (calls : list call) : list event :=
  match calls with
  | [] => []
  | c :: calls' => head_events self c ++ trace (step self c).2 calls'
  end.

(** The same with the clock each call was made on. *)
Definition head_log (self : VirtualClock) (c : call)
  : list (VirtualClock * event) :=
  match c with
  | EventTime agent_id parent_time action_hint =>
      match event_time self agent_id parent_time action_hint with
      | Returns (r, _) => [(self, event_of self parent_time r)]
      | Raises _ => []
      end
  | AdvanceTick _ => []
  end.

Fixpoint log (self : VirtualClock) (calls : list call)
  : list (VirtualClock * event) :=
  match calls with
  | [] => []
  | c :: calls' => head_log self c ++ log (step self c).2 calls'
  end.

End Run.

(** The exhaustion case of a call on [self] with [parent_time]: the call
    reaches the probe and every timestamp of its range
    [min_time .. tick_end] is already used in the tick. *)
Definition exhausted (self : VirtualClock) (parent_time : option Z) : Prop :=
  overflows self parent_time = false /\
  range_full (used_of self) (min_time_of self parent_time) (tick_end_s self).

(** Two clocks agree when they hold the same tick duration, seed, tick,
    event counters and used sets; the epoch and the stored random source,
    which [event_time] never reads, may differ. *)
Definition agree (c1 c2 : VirtualClock) : Prop :=
  tick_duration_s c1 = tick_duration_s c2 /\
  seed c1 = seed c2 /\
  tick c1 = tick c2 /\
  _event_counter c1 = _event_counter c2 /\
  _used_times c1 = _used_times c2.

(** ** A concrete runtime and sample clocks

    A small deterministic stand-in for [hash] and [randint], to run the
    model on concrete inputs. *)

Definition toy_hash (k : Z * Z * Z * string * Z) : Z :=
  let '(s, t, a, h, i) := k in
  1000003 * (1000003 * (1000003 * (1000003 * s + t) + a)
             + Z.of_nat (String.length h)) + i.

Definition toy_randint (local_seed a b : Z) : Z :=
  a + local_seed mod (b - a + 1).

Definition toy_runtime : PyRuntime.
Proof.
  refine {| py_hash := toy_hash; py_randint := toy_randint |}.
  intros local_seed a b Hab. unfold toy_randint.
  pose proof (Z.mod_pos_bound local_seed (b - a + 1)). lia.
Defined.

(** One interpreter process per salt: [hash] of a tuple that holds a [str]
    depends on the hash salt the process started with ([PYTHONHASHSEED], random
    by default); [randint] does not. *)
Definition salted_hash (salt : Z) (k : Z * Z * Z * string * Z) : Z :=
  toy_hash k + salt.

Definition salted_runtime (salt : Z) : PyRuntime.
Proof.
  refine {| py_hash := salted_hash salt; py_randint := toy_randint |}.
  intros local_seed a b Hab. unfold toy_randint.
  pose proof (Z.mod_pos_bound local_seed (b - a + 1)). lia.
Defined.

(** The default epoch, [datetime(2024, 1, 1, 0, 0, 0)]: day 738886 of the
    proleptic Gregorian calendar. *)
Definition default_epoch : datetime :=
  mkDatetime ((738886 - 1) * 86400 * 1000000).

(** [VirtualClock()] with the defaults of the dataclass. *)
Definition default_clock : VirtualClock := new 86400 default_epoch 42 0.

(** A clock with a two-second tick, fresh; and the same clock after agent 2
    has called [event_time(2, 0, "")]. *)
Definition two_second_clock : VirtualClock := new 2 default_epoch 42 0.

Definition two_second_clock_after_agent2 : VirtualClock :=
  {| tick_duration_s := 2; epoch := default_epoch; seed := 42; tick := 0;
     _rng := Some (mkRandom 42);
     _event_counter := {[ (0, 2) := 1 ]};
     _used_times := {[ 0 := {[ 1 ]} ]} |}.



(** The instant half a second before the default epoch,
    2023-12-31 23:59:59.500000. *)
Definition half_second_before_epoch : datetime :=
  mkDatetime (dt_us default_epoch - 500000).

(** 2600-01-01 00:00:00.999999, more than [2^34] seconds after the default
    epoch: the float nearest to the offset is the next whole second. *)
Definition early_2600_sub_second : datetime :=
  mkDatetime (dt_us default_epoch + 18176832000999999).

(** ** The rest of the clock's interface *)

(** The [time_step] property: an alias of [tick]. *)
Definition time_step (self : VirtualClock) : Z := tick self.

(** The [time_step] setter: writes [tick] and nothing else. *)
Definition set_time_step (self : VirtualClock) (value : Z) : VirtualClock :=
  {| tick_duration_s := tick_duration_s self;
     epoch := epoch self;
     seed := seed self;
     tick := value;
     _rng := _rng self;
     _event_counter := _event_counter self;
     _used_times := _used_times self |}.

(** [time_transfer]: both arguments are ignored. *)
Definition time_transfer (self : VirtualClock) (now_time start_time : datetime)
  : outcome datetime :=
  to_datetime self (tick_start_s self).

(** [reset] *)
Definition reset (self : VirtualClock) : VirtualClock :=
  {| tick_duration_s := tick_duration_s self;
     epoch := epoch self;
     seed := seed self;
     tick := 0;
     _rng := Some (mkRandom (seed self));
     _event_counter := ∅;
     _used_times := ∅ |}.

(** The operations of the clock that change it: the calls of a driver, plus
    [reset] and the [time_step] setter. *)
Inductive op : Type :=
| Call (c : call)
| Reset
| SetTimeStep (value : Z).

Section Ops.
Context {rt : PyRuntime}.

(** The timestamp [event_time] draws before the uniqueness loop:
    [local_rng.randint(min_time, max_time)]. *)
Definition drawn (self : VirtualClock) (agent_id : Z) (parent_time : option Z)
    (action_hint : string) : Z :=
  py_randint
    (py_hash (seed self, tick self, agent_id, action_hint,
              event_index_of self agent_id))
    (min_time_of self parent_time) (tick_end_s self).

Definition step_op (self : VirtualClock) (o : op) : VirtualClock :=
  match o with
  | Call c => (step self c).2
  | Reset => reset self
  | SetTimeStep value => set_time_step self value
  end.

(** The clock after a sequence of operations. *)
Definition run_ops (self : VirtualClock) (ops : list op) : VirtualClock :=
  fold_left step_op ops self.

(** The number of [event_time] calls of [agent_id] in a sequence that went
    through the branch that draws a timestamp. *)
Fixpoint issued (self : VirtualClock) (calls : list call) (agent_id : Z) : Z :=
  match calls with
  | [] => 0
  | c :: calls' =>
      (match c with
       | EventTime a parent_time _ =>
           if bool_decide (a = agent_id) && negb (overflows self parent_time)
           then 1 else 0
       | AdvanceTick _ => 0
       end) + issued (step self c).2 calls' agent_id
  end.

End Ops.

(** A sequence of calls without [advance_tick]. *)
Definition only_event_time (calls : list call) : Prop :=
  Forall (fun c => match c with EventTime _ _ _ => True | AdvanceTick _ => False end)
         calls.

(** The values of an inclusive integer range, as a set. *)
Definition range_set (min_time max_time : Z) : gset Z :=
  list_to_set (seqZ min_time (max_time - min_time + 1)).

(** ** The enumerations of [oasis/social_platform/typing.py] *)

Module ActionType.

Inductive t : Set :=
| EXIT
| REFRESH
| SEARCH_USER
| SEARCH_POSTS
| CREATE_POST
| LIKE_POST
| UNLIKE_POST
| DISLIKE_POST
| UNDO_DISLIKE_POST
| REPORT_POST
| FOLLOW
| UNFOLLOW
| MUTE
| UNMUTE
| TREND
| SIGNUP
| REPOST
| QUOTE_POST
| UPDATE_REC_TABLE
| CREATE_COMMENT
| LIKE_COMMENT
| UNLIKE_COMMENT
| DISLIKE_COMMENT
| UNDO_DISLIKE_COMMENT
| DO_NOTHING
| PURCHASE_PRODUCT
| INTERVIEW
| JOIN_GROUP
| LEAVE_GROUP
| SEND_TO_GROUP
| CREATE_GROUP
| LISTEN_FROM_GROUP
| SEND_FRIEND_REQUEST
| ACCEPT_FRIEND_REQUEST
| REJECT_FRIEND_REQUEST
| UNFRIEND
| GET_FRIEND_REQUESTS
| GET_FRIENDS
| REACT_TO_POST
| REMOVE_REACTION
| CREATE_GROUP_POST
| SHARE_TO_GROUP.

(** [member.value] *)
Definition value (m : t) : string :=
  match m with
  | EXIT => "exit"
  | REFRESH => "refresh"
  | SEARCH_USER => "search_user"
  | SEARCH_POSTS => "search_posts"
  | CREATE_POST => "create_post"
  | LIKE_POST => "like_post"
  | UNLIKE_POST => "unlike_post"
  | DISLIKE_POST => "dislike_post"
  | UNDO_DISLIKE_POST => "undo_dislike_post"
  | REPORT_POST => "report_post"
  | FOLLOW => "follow"
  | UNFOLLOW => "unfollow"
  | MUTE => "mute"
  | UNMUTE => "unmute"
  | TREND => "trend"
  | SIGNUP => "sign_up"
  | REPOST => "repost"
  | QUOTE_POST => "quote_post"
  | UPDATE_REC_TABLE => "update_rec_table"
  | CREATE_COMMENT => "create_comment"
  | LIKE_COMMENT => "like_comment"
  | UNLIKE_COMMENT => "unlike_comment"
  | DISLIKE_COMMENT => "dislike_comment"
  | UNDO_DISLIKE_COMMENT => "undo_dislike_comment"
  | DO_NOTHING => "do_nothing"
  | PURCHASE_PRODUCT => "purchase_product"
  | INTERVIEW => "interview"
  | JOIN_GROUP => "join_group"
  | LEAVE_GROUP => "leave_group"
  | SEND_TO_GROUP => "send_to_group"
  | CREATE_GROUP => "create_group"
  | LISTEN_FROM_GROUP => "listen_from_group"
  | SEND_FRIEND_REQUEST => "send_friend_request"
  | ACCEPT_FRIEND_REQUEST => "accept_friend_request"
  | REJECT_FRIEND_REQUEST => "reject_friend_request"
  | UNFRIEND => "unfriend"
  | GET_FRIEND_REQUESTS => "get_friend_requests"
  | GET_FRIENDS => "get_friends"
  | REACT_TO_POST => "react_to_post"
  | REMOVE_REACTION => "remove_reaction"
  | CREATE_GROUP_POST => "create_group_post"
  | SHARE_TO_GROUP => "share_to_group"
  end.

(** The members, in the order of the class body. *)
Definition members : list t :=
  [ EXIT; REFRESH; SEARCH_USER; SEARCH_POSTS; CREATE_POST; LIKE_POST;
    UNLIKE_POST; DISLIKE_POST; UNDO_DISLIKE_POST; REPORT_POST; FOLLOW;
    UNFOLLOW; MUTE; UNMUTE; TREND; SIGNUP; REPOST; QUOTE_POST;
    UPDATE_REC_TABLE; CREATE_COMMENT; LIKE_COMMENT; UNLIKE_COMMENT;
    DISLIKE_COMMENT; UNDO_DISLIKE_COMMENT; DO_NOTHING; PURCHASE_PRODUCT;
    INTERVIEW; JOIN_GROUP; LEAVE_GROUP; SEND_TO_GROUP; CREATE_GROUP;
    LISTEN_FROM_GROUP; SEND_FRIEND_REQUEST; ACCEPT_FRIEND_REQUEST;
    REJECT_FRIEND_REQUEST; UNFRIEND; GET_FRIEND_REQUESTS; GET_FRIENDS;
    REACT_TO_POST; REMOVE_REACTION; CREATE_GROUP_POST; SHARE_TO_GROUP ].

(** [ActionType(s)], the lookup of a member by its value; [None] stands for
    the [ValueError] of a string that is no member's value. *)
Definition of_value (s : string) : option t :=
  List.find (fun m => bool_decide (value m = s)) members.

Definition get_default_twitter_actions : list t :=
  [ CREATE_POST; LIKE_POST; REPOST; FOLLOW; DO_NOTHING; QUOTE_POST ].

Definition get_default_reddit_actions : list t :=
  [ LIKE_POST; DISLIKE_POST; CREATE_POST; CREATE_COMMENT; LIKE_COMMENT;
    DISLIKE_COMMENT; SEARCH_POSTS; SEARCH_USER; TREND; REFRESH;
    DO_NOTHING; FOLLOW; MUTE ].

Definition get_default_facebook_actions : list t :=
  [ CREATE_POST; CREATE_GROUP_POST; REACT_TO_POST; SEND_FRIEND_REQUEST;
    ACCEPT_FRIEND_REQUEST; CREATE_COMMENT; JOIN_GROUP; SHARE_TO_GROUP;
    REFRESH; DO_NOTHING ].

End ActionType.

(** The members the class body lists under [# Facebook-style actions]. *)
Definition facebook_style (m : ActionType.t) : bool :=
  match m with
  | ActionType.SEND_FRIEND_REQUEST | ActionType.ACCEPT_FRIEND_REQUEST
  | ActionType.REJECT_FRIEND_REQUEST | ActionType.UNFRIEND
  | ActionType.GET_FRIEND_REQUESTS | ActionType.GET_FRIENDS
  | ActionType.REACT_TO_POST | ActionType.REMOVE_REACTION
  | ActionType.CREATE_GROUP_POST | ActionType.SHARE_TO_GROUP => true
  | _ => false
  end.

Module RecsysType.

Inductive t : Set :=
| TWITTER
| TWHIN
| REDDIT
| RANDOM
| FACEBOOK.

(** [member.value] *)
Definition value (m : t) : string :=
  match m with
  | TWITTER => "twitter"
  | TWHIN => "twhin-bert"
  | REDDIT => "reddit"
  | RANDOM => "random"
  | FACEBOOK => "facebook"
  end.

(** The members, in the order of the class body. *)
Definition members : list t :=
  [ TWITTER; TWHIN; REDDIT; RANDOM; FACEBOOK ].

(** [RecsysType(s)], the lookup of a member by its value; [None] stands for
    the [ValueError] of a string that is no member's value. *)
Definition of_value (s : string) : option t :=
  List.find (fun m => bool_decide (value m = s)) members.

End RecsysType.

Module DefaultPlatformType.

Inductive t : Set :=
| TWITTER
| REDDIT
| FACEBOOK.

(** [member.value] *)
Definition value (m : t) : string :=
  match m with
  | TWITTER => "twitter"
  | REDDIT => "reddit"
  | FACEBOOK => "facebook"
  end.

(** The members, in the order of the class body. *)
Definition members : list t :=
  [ TWITTER; REDDIT; FACEBOOK ].

(** [DefaultPlatformType(s)], the lookup of a member by its value; [None] stands for
    the [ValueError] of a string that is no member's value. *)
Definition of_value (s : string) : option t :=
  List.find (fun m => bool_decide (value m = s)) members.

End DefaultPlatformType.

(** ** The image prompt of [oasis/social_agent/image_prompt.py]

    Python strings are sequences of code points; here a string is the
    sequence of bytes of its UTF-8 encoding, which concatenation respects. *)

Definition IMAGE_SYSTEM_PROMPT : string :=
  "You are generating an image prompt for a realistic social media photo.

Style requirements:
- Modern smartphone photography aesthetic (iPhone/Samsung quality)
- Natural lighting preferred, golden hour when relevant
- Candid, authentic feel - not overly staged or stock-photo-like
- High resolution, sharp focus on subject
- Realistic colors, not oversaturated
- Appropriate for Instagram/Facebook content

Composition guidelines:
- Rule of thirds when appropriate
- Clean backgrounds that don't distract
- Proper depth of field for the subject matter
- Eye-level or slightly elevated angles for portraits

DO NOT include:
- Watermarks or text overlays
- Artificial lens flares or heavy filters
- Unrealistic proportions or AI artifacts
- Celebrity likenesses or copyrighted characters
".

(** [build_image_prompt]: the f-string
    [{IMAGE_SYSTEM_PROMPT}\n\nSubject: {user_prompt}]. *)
Definition build_image_prompt (user_prompt : string) : string :=
  IMAGE_SYSTEM_PROMPT +:+ "

Subject: " +:+ user_prompt.

(** ** The uniqueness probe *)

Section Probe.
Variables (used : gset Z) (min_time max_time max_attempts : Z).

Lemma probe_unfold fuel g a :
  probe (S fuel) used min_time max_time max_attempts g a =
  if probe_guard used max_attempts (g, a)
  then probe fuel used min_time max_time max_attempts
             (next_candidate min_time max_time g) (a + 1)
  else (g, a).
Proof. reflexivity. Qed.

(** Every candidate the probe holds stays within the valid range. *)
Lemma probe_in_range fuel g a :
  min_time <= g <= max_time ->
  min_time <= (probe fuel used min_time max_time max_attempts g a).1 <= max_time.
Proof.
  revert g a. induction fuel as [|fuel IH]; intros g a Hg; [exact Hg|].
  rewrite probe_unfold. destruct (probe_guard _ _ _); [|exact Hg].
  apply IH. unfold next_candidate.
  destruct (max_time <? g + 1) eqn:E; [apply Z.ltb_lt in E | apply Z.ltb_ge in E]; lia.
Qed.

(** With [max_attempts - attempts] iterations allowed, the loop has left
    through its own guard. *)
Lemma probe_guard_false fuel g a :
  (Z.to_nat (max_attempts - a) <= fuel)%nat ->
  probe_guard used max_attempts
    (probe fuel used min_time max_time max_attempts g a) = false.
Proof.
  revert g a. induction fuel as [|fuel IH]; intros g a Hfuel.
  - simpl. unfold probe_guard. simpl.
    replace (a <? max_attempts) with false; [apply andb_false_r|].
    symmetry. apply Z.ltb_ge. lia.
  - rewrite probe_unfold. destruct (probe_guard used max_attempts (g, a)) eqn:G.
    + apply IH. lia.
    + exact G.
Qed.

(** More iterations than that change nothing. *)
Lemma probe_fuel_enough fuel extra g a :
  (Z.to_nat (max_attempts - a) <= fuel)%nat ->
  probe (fuel + extra) used min_time max_time max_attempts g a =
  probe fuel used min_time max_time max_attempts g a.
Proof.
  revert g a. induction fuel as [|fuel IH]; intros g a Hfuel.
  - destruct extra as [|extra]; [reflexivity|].
    change (0 + S extra)%nat with (S extra). rewrite probe_unfold.
    unfold probe_guard. simpl.
    replace (a <? max_attempts) with false; [now rewrite andb_false_r|].
    symmetry. apply Z.ltb_ge. lia.
  - change (S fuel + extra)%nat with (S (fuel + extra)).
    rewrite !probe_unfold. destruct (probe_guard _ _ _); [|reflexivity].
    apply IH. lia.
Qed.

(** When the probe stops on a used value after [fuel = max_attempts -
    attempts] iterations, every candidate it went through was used. *)
Lemma probe_collision_orbit fuel g a :
  Z.of_nat fuel = max_attempts - a ->
  (probe fuel used min_time max_time max_attempts g a).1 ∈ used ->
  forall k, (k <= fuel)%nat ->
    Nat.iter k (next_candidate min_time max_time) g ∈ used.
Proof.
  revert g a. induction fuel as [|fuel IH]; intros g a Hfuel Hin k Hk.
  - assert (k = 0%nat) as -> by lia. exact Hin.
  - rewrite probe_unfold in Hin. unfold probe_guard in Hin. simpl in Hin.
    destruct (bool_decide (g ∈ used)) eqn:G.
    + apply bool_decide_eq_true in G.
      replace (a <? max_attempts) with true in Hin
        by (symmetry; apply Z.ltb_lt; lia).
      simpl in Hin. destruct k as [|k]; [exact G|].
      rewrite Nat.iter_succ_r. apply (IH _ (a + 1)); [lia | exact Hin | lia].
    + simpl in Hin. apply bool_decide_eq_false in G. contradiction.
Qed.

End Probe.

(** The [k]-th candidate after [g], in closed form. *)
Lemma next_candidate_iter min_time max_time g k :
  min_time <= g <= max_time ->
  Nat.iter k (next_candidate min_time max_time) g =
  min_time + (g - min_time + Z.of_nat k) mod (max_time - min_time + 1).
Proof.
  intros Hg. induction k as [|k IH].
  - simpl. rewrite Z.add_0_r, Z.mod_small; lia.
  - rewrite Nat.iter_succ, IH.
    set (n := max_time - min_time + 1) in *.
    pose proof (Z.mod_pos_bound (g - min_time + Z.of_nat k) n ltac:(lia)) as Hm.
    replace (g - min_time + Z.of_nat (S k))
      with ((g - min_time + Z.of_nat k) + 1) by lia.
    rewrite <- (Zplus_mod_idemp_l (g - min_time + Z.of_nat k) 1 n).
    set (m := (g - min_time + Z.of_nat k) mod n) in *.
    unfold next_candidate.
    destruct (max_time <? min_time + m + 1) eqn:E.
    + apply Z.ltb_lt in E. assert (m + 1 = n) as -> by lia.
      rewrite Z_mod_same_full. lia.
    + apply Z.ltb_ge in E. rewrite Z.mod_small; lia.
Qed.

(** From any start, [max_time - min_time + 1] probes visit the whole range. *)
Lemma next_candidate_covers min_time max_time g x :
  min_time <= g <= max_time -> min_time <= x <= max_time ->
  exists k, (Z.of_nat k < max_time - min_time + 1) /\
            Nat.iter k (next_candidate min_time max_time) g = x.
Proof.
  intros Hg Hx. set (n := max_time - min_time + 1).
  pose proof (Z.mod_pos_bound (x - g) n ltac:(lia)) as Hm.
  exists (Z.to_nat ((x - g) mod n)). split; [lia|].
  rewrite next_candidate_iter by exact Hg. fold n.
  rewrite Z2Nat.id by lia.
  rewrite Zplus_mod_idemp_r.
  replace (g - min_time + (x - g)) with (x - min_time) by lia.
  rewrite Z.mod_small; lia.
Qed.

(** The probe of [event_time] returns a used value only when the whole
    valid range is used. *)
Lemma probe_collision_full used min_time max_time g :
  min_time <= g <= max_time ->
  (probe (Z.to_nat (max_time - min_time + 1)) used min_time max_time
         (max_time - min_time + 1) g 0).1 ∈ used ->
  range_full used min_time max_time.
Proof.
  intros Hg Hin x Hx.
  destruct (next_candidate_covers min_time max_time g x Hg Hx) as (k & Hk & <-).
  eapply probe_collision_orbit; [| exact Hin | lia]. lia.
Qed.

(** The number of iterations [event_time] allows is enough: its loop ends
    because the guard is false. *)
Lemma probe_event_time_exits used min_time max_time g :
  probe_guard used (max_time - min_time + 1)
    (probe (Z.to_nat (max_time - min_time + 1)) used min_time max_time
           (max_time - min_time + 1) g 0) = false.
Proof. apply probe_guard_false. lia. Qed.

(** ** What one [event_time] call does *)

Section EventTimeFacts.
Context {rt : PyRuntime}.

Lemma event_time_overflow self agent_id p action_hint :
  tick_end_s self < p + 1 ->
  event_time self agent_id (Some p) action_hint = Returns (p + 1, self).
Proof.
  intros H. unfold event_time.
  apply Z.ltb_lt in H. now rewrite H.
Qed.

Lemma event_time_no_parent_no_room self agent_id action_hint :
  tick_end_s self < tick_start_s self ->
  event_time self agent_id None action_hint = Raises TypeError.
Proof.
  intros H. unfold event_time.
  apply Z.ltb_lt in H. now rewrite H.
Qed.

(** The branch with room in the range: the call returns a value of
    [min_time .. tick_end], records it in the used set of the tick and bumps
    the counter of [(tick, agent_id)]; the value is fresh unless the range
    is full. *)
Lemma event_time_room self agent_id parent_time action_hint :
  min_time_of self parent_time <= tick_end_s self ->
  exists r,
    event_time self agent_id parent_time action_hint =
      Returns (r,
        {| tick_duration_s := tick_duration_s self;
           epoch := epoch self;
           seed := seed self;
           tick := tick self;
           _rng := _rng self;
           _event_counter :=
             <[(tick self, agent_id) := event_index_of self agent_id + 1]>
               (_event_counter self);
           _used_times :=
             <[tick self := {[r]} ∪ used_of self]> (_used_times self) |}) /\
    min_time_of self parent_time <= r <= tick_end_s self /\
    (r ∈ used_of self ->
     range_full (used_of self) (min_time_of self parent_time) (tick_end_s self)).
Proof.
  intros Hroom. unfold event_time.
  change (match parent_time with
          | Some p => p + 1
          | None => tick_start_s self
          end) with (min_time_of self parent_time).
  set (lo := min_time_of self parent_time) in *.
  set (hi := tick_end_s self) in *.
  replace (hi <? lo) with false by (symmetry; apply Z.ltb_ge; lia).
  fold (used_of self). fold (event_index_of self agent_id).
  set (g := py_randint _ lo hi).
  assert (lo <= g <= hi) as Hg by (apply py_randint_range; lia).
  eexists. split; [reflexivity|]. split.
  - apply probe_in_range. exact Hg.
  - intros Hin. eapply probe_collision_full; [exact Hg | exact Hin].
Qed.

(** [event_time] raises only when called without a parent on a clock whose
    tick range is empty. *)
Lemma event_time_cases self agent_id parent_time action_hint :
  (overflows self parent_time = true /\
   event_time self agent_id parent_time action_hint =
     match parent_time with
     | Some p => Returns (p + 1, self)
     | None => Raises TypeError
     end) \/
  (overflows self parent_time = false /\
   min_time_of self parent_time <= tick_end_s self).
Proof.
  unfold overflows. destruct (tick_end_s self <? min_time_of self parent_time) eqn:E.
  - left. split; [reflexivity|]. apply Z.ltb_lt in E.
    destruct parent_time as [p|]; simpl in E.
    + now apply event_time_overflow.
    + now apply event_time_no_parent_no_room.
  - right. split; [reflexivity|]. now apply Z.ltb_ge in E.
Qed.

(** The probe gives up, returning a value that is already used, exactly
    when the valid range of the call is full. *)
Lemma event_time_collides_iff_full self agent_id parent_time action_hint r self' :
  overflows self parent_time = false ->
  event_time self agent_id parent_time action_hint = Returns (r, self') ->
  r ∈ used_of self <->
  range_full (used_of self) (min_time_of self parent_time) (tick_end_s self).
Proof.
  intros Ho E. apply Z.ltb_ge in Ho.
  destruct (event_time_room self agent_id parent_time action_hint Ho)
    as (r0 & E0 & Hr & Hfull).
  rewrite E in E0. injection E0 as -> _.
  split; [exact Hfull|]. intros F. now apply F.
Qed.

End EventTimeFacts.

(** ** Advancing the tick *)

(** C8 (advance, effect and frame): for every [n], [advance_tick n] returns,
    sets [tick] to its prior value plus [n] and empties the event counter;
    [tick_duration_s], [epoch], [seed], the used-timestamp history and the
    stored random source are unchanged. *)
Theorem advance_tick_effect_and_frame (self : VirtualClock) (n : Z) :
  exists self',
    advance_tick self n = Returns self' /\
    tick self' = tick self + n /\
    _event_counter self' = ∅ /\
    tick_duration_s self' = tick_duration_s self /\
    epoch self' = epoch self /\
    seed self' = seed self /\
    _used_times self' = _used_times self /\
    _rng self' = _rng self.
Proof. eexists. split; [reflexivity|]. simpl. repeat split. Qed.

(** C7, as the code has it: [advance_tick] checks nothing.  For every
    integer [n], [n < 1] included, it returns normally with [tick] moved by
    [n] and the event counter emptied; so [tick] moves strictly forward
    exactly when [1 <= n], stays in place for [n = 0] and moves backward for
    [n < 0]. *)
Theorem advance_tick_unchecked (self : VirtualClock) (n : Z) :
  exists self',
    advance_tick self n = Returns self' /\
    tick self' = tick self + n /\
    _event_counter self' = ∅ /\
    (tick self < tick self' <-> 1 <= n) /\
    (tick self' = tick self <-> n = 0) /\
    (tick self' < tick self <-> n < 0).
Proof.
  eexists. split; [reflexivity|]. simpl. repeat split; lia.
Qed.

(** C7 fails as stated: on the default clock, [advance_tick(-1)] raises
    nothing and leaves the clock at tick [-1], before the tick it was in. *)
Lemma advance_tick_negative_accepted :
  exists self',
    advance_tick default_clock (-1) = Returns self' /\
    tick self' = -1 /\
    tick self' < tick default_clock.
Proof. eexists. split; [reflexivity|]. simpl. split; [reflexivity | lia]. Qed.

(** ** Timestamp synthesis: causality, range and overflow *)

(** C3 (causality): a call with parent [p] always returns, and the returned
    timestamp is strictly greater than [p], on the branch that draws and
    probes as well as on the overflow branch (where it is [p + 1]); a probe
    that starts at or above [p + 1] never goes below [p + 1], however many
    steps it takes. *)
Theorem causality {rt : PyRuntime} (self : VirtualClock) (agent_id p : Z)
    (action_hint : string) :
  (exists r self',
     event_time self agent_id (Some p) action_hint = Returns (r, self') /\
     p < r /\
     (overflows self (Some p) = true -> r = p + 1)) /\
  (forall fuel used max_time max_attempts g attempts,
     p + 1 <= g <= max_time ->
     p + 1 <= (probe fuel used (p + 1) max_time max_attempts g attempts).1).
Proof.
  split.
  - destruct (event_time_cases self agent_id (Some p) action_hint)
      as [[Ho E] | [Ho Hroom]].
    + exists (p + 1), self. split; [exact E|]. split; [lia | reflexivity].
    + destruct (event_time_room self agent_id (Some p) action_hint Hroom)
        as (r & E & Hr & _).
      eexists r, _. split; [exact E|]. simpl in Hr.
      split; [lia|]. rewrite Ho. discriminate.
  - intros fuel used max_time max_attempts g attempts Hg.
    apply probe_in_range. exact Hg.
Qed.

Lemma causality_witness :
  (exists r self',
     @event_time toy_runtime default_clock 2 (Some 27444) "comment" =
       Returns (r, self') /\
     27444 < r /\
     (overflows default_clock (Some 27444) = true -> r = 27444 + 1)) /\
  27444 + 1 <= (probe 3 {[86398; 86399]} (27444 + 1) 86399 58955 86398 0).1.
Proof.
  split.
  - apply (@causality toy_runtime default_clock 2 27444 "comment").
  - apply (proj2 (@causality toy_runtime default_clock 2 27444 "comment")).
    lia.
Defined.

(** C5 (range containment): on a clock with a positive tick duration a call
    without parent returns; whatever such a call returns lies in
    [tick * tick_duration_s .. (tick + 1) * tick_duration_s - 1] of the tick
    it is made in, also when the probe gives up; and every candidate of the
    probe stays within [min_time .. max_time]. *)
Theorem range_containment {rt : PyRuntime} (self : VirtualClock)
    (agent_id : Z) (action_hint : string) :
  (0 < tick_duration_s self ->
   exists r self',
     event_time self agent_id None action_hint = Returns (r, self')) /\
  (forall r self',
     event_time self agent_id None action_hint = Returns (r, self') ->
     tick self * tick_duration_s self <= r
       <= (tick self + 1) * tick_duration_s self - 1) /\
  (forall fuel used min_time max_time max_attempts g attempts,
     min_time <= g <= max_time ->
     min_time <= (probe fuel used min_time max_time max_attempts g attempts).1
       <= max_time).
Proof.
  split; [|split].
  - intros Hd.
    destruct (event_time_room self agent_id None action_hint) as (r & E & _).
    + simpl. unfold tick_start_s, tick_end_s. lia.
    + eauto.
  - intros r self' E.
    destruct (event_time_cases self agent_id None action_hint)
      as [[_ E'] | [_ Hroom]]; [congruence|].
    destruct (event_time_room self agent_id None action_hint Hroom)
      as (r0 & E0 & Hr & _).
    rewrite E in E0. injection E0 as -> _. exact Hr.
  - intros. now apply probe_in_range.
Qed.

Lemma range_containment_witness :
  (exists r self',
     @event_time toy_runtime default_clock 1 None "create_post" =
       Returns (r, self')) /\
  (tick default_clock * tick_duration_s default_clock <= 27444
     <= (tick default_clock + 1) * tick_duration_s default_clock - 1) /\
  0 <= (probe 2 {[1]} 0 1 2 1 0).1 <= 1.
Proof.
  pose proof (@range_containment toy_runtime default_clock 1 "create_post")
    as (H1 & H2 & H3).
  split; [|split].
  - apply H1. simpl. lia.
  - eapply H2. vm_compute. reflexivity.
  - apply H3. lia.
Defined.

(** C6 (parent overflow): when [parent_time + 1] is beyond the end of the
    current tick, [event_time] returns exactly [parent_time + 1], whatever
    the runtime would have drawn and whatever the used set holds; with a
    tick of 86400 seconds at tick 0, parent 86399 gives 86400. *)
Theorem parent_overflow_spillover {rt : PyRuntime} (self : VirtualClock)
    (agent_id : Z) (action_hint : string) :
  (forall p, tick_end_s self < p + 1 ->
     fst <$> event_time self agent_id (Some p) action_hint = Returns (p + 1)) /\
  (tick_duration_s self = 86400 -> tick self = 0 ->
     fst <$> event_time self agent_id (Some 86399) action_hint = Returns 86400).
Proof.
  split.
  - intros p H. now rewrite event_time_overflow.
  - intros Hd Ht. rewrite event_time_overflow; [reflexivity|].
    unfold tick_end_s. rewrite Hd, Ht. lia.
Qed.

Lemma parent_overflow_spillover_witness :
  fst <$> @event_time toy_runtime default_clock 2 (Some 90000) "comment"
    = Returns (90000 + 1) /\
  fst <$> @event_time toy_runtime default_clock 2 (Some 86399) "comment"
    = Returns 86400.
Proof.
  split.
  - apply (proj1 (@parent_overflow_spillover toy_runtime default_clock 2
                    "comment")).
    vm_compute. reflexivity.
  - apply (proj2 (@parent_overflow_spillover toy_runtime default_clock 2
                    "comment")); reflexivity.
Defined.

(** C10 (the overflow branch writes nothing): a call that takes the
    parent-overflow branch returns the clock it was given, so the event
    counter and the used set are as before, and the calls that follow return
    what they would have returned without it. *)
Theorem overflow_leaves_clock_unchanged {rt : PyRuntime} (self : VirtualClock)
    (agent_id p : Z) (action_hint : string) :
  tick_end_s self < p + 1 ->
  snd <$> event_time self agent_id (Some p) action_hint = Returns self /\
  forall calls,
    run self (EventTime agent_id (Some p) action_hint :: calls) =
      (Returns (Some (p + 1)) :: (run self calls).1, (run self calls).2).
Proof.
  intros H. split.
  - now rewrite event_time_overflow.
  - intros calls. simpl. rewrite event_time_overflow by exact H.
    now destruct (run self calls).
Qed.

Lemma overflow_leaves_clock_unchanged_witness :
  snd <$> @event_time toy_runtime default_clock 2 (Some 86399) "comment"
    = Returns default_clock /\
  @run toy_runtime default_clock
    [EventTime 2 (Some 86399) "comment"; EventTime 1 None "create_post"] =
    (Returns (Some (86399 + 1))
       :: (@run toy_runtime default_clock [EventTime 1 None "create_post"]).1,
     (@run toy_runtime default_clock [EventTime 1 None "create_post"]).2).
Proof.
  assert (tick_end_s default_clock < 86399 + 1) as H by (vm_compute; reflexivity).
  split.
  - apply (@overflow_leaves_clock_unchanged toy_runtime default_clock 2 86399
             "comment" H).
  - apply (@overflow_leaves_clock_unchanged toy_runtime default_clock 2 86399
             "comment" H).
Defined.

(** ** Replay *)

Section Replay.
Context {rt : PyRuntime}.

Lemma agree_new d e1 e2 s t : agree (new d e1 s t) (new d e2 s t).
Proof. repeat split. Qed.

Lemma agree_advance_tick c1 c2 n c1' c2' :
  agree c1 c2 ->
  advance_tick c1 n = Returns c1' -> advance_tick c2 n = Returns c2' ->
  agree c1' c2'.
Proof.
  intros (Hd & Hs & Ht & Hc & Hu) [= <-] [= <-].
  repeat split; simpl; congruence.
Qed.

(** On agreeing clocks [event_time] has the same outcome, and the clocks
    agree afterwards. *)
Lemma agree_event_time c1 c2 agent_id parent_time action_hint :
  agree c1 c2 ->
  match event_time c1 agent_id parent_time action_hint,
        event_time c2 agent_id parent_time action_hint with
  | Returns (r1, c1'), Returns (r2, c2') => r1 = r2 /\ agree c1' c2'
  | Raises e1, Raises e2 => e1 = e2
  | _, _ => False
  end.
Proof.
  intros (Hd & Hs & Ht & Hc & Hu). unfold event_time, tick_start_s, tick_end_s.
  rewrite <- Hd, <- Hs, <- Ht, <- Hc, <- Hu.
  destruct (_ <? _).
  - destruct parent_time; [|reflexivity].
    split; [reflexivity|]. repeat split; assumption.
  - split; [reflexivity|]. repeat split; simpl; congruence.
Qed.

Lemma agree_step c1 c2 c :
  agree c1 c2 ->
  (step c1 c).1 = (step c2 c).1 /\ agree (step c1 c).2 (step c2 c).2.
Proof.
  intros H. destruct c as [n | agent_id parent_time action_hint]; simpl.
  - split; [reflexivity|]. now apply (agree_advance_tick c1 c2 n).
  - pose proof (agree_event_time c1 c2 agent_id parent_time action_hint H) as A.
    destruct (event_time c1 _ _ _) as [[r1 c1'] | e1],
             (event_time c2 _ _ _) as [[r2 c2'] | e2];
      simpl; try contradiction.
    + destruct A as [-> A]. now split.
    + subst. now split.
Qed.

Lemma agree_run calls : forall c1 c2,
  agree c1 c2 ->
  (run c1 calls).1 = (run c2 calls).1 /\ agree (run c1 calls).2 (run c2 calls).2.
Proof.
  induction calls as [|c calls IH]; intros c1 c2 H; simpl; [now split|].
  destruct (agree_step c1 c2 c H) as [Ho Ha].
  destruct (step c1 c) as [o1 c1'], (step c2 c) as [o2 c2']. simpl in *.
  destruct (IH c1' c2' Ha) as [Hos Ha'].
  destruct (run c1' calls) as [os1 c1''], (run c2' calls) as [os2 c2''].
  simpl in *. split; [congruence | assumption].
Qed.

End Replay.

(** Within one interpreter process: two clocks constructed with the same
    seed, tick duration and start tick (their epochs need not be equal),
    given the same sequence of [event_time] and [advance_tick] calls, return
    the same sequence of outcomes. *)
Lemma replay_within_one_process {rt : PyRuntime} (tick_duration seed0 tick0 : Z)
    (epoch1 epoch2 : datetime) (calls : list call) :
  (run (new tick_duration epoch1 seed0 tick0) calls).1 =
  (run (new tick_duration epoch2 seed0 tick0) calls).1.
Proof.
  apply agree_run, agree_new.
Qed.

(** C1 does not hold of the code across interpreter processes.  The local
    seed is [hash] of a tuple that holds the hint, a [str], and the hash of
    a [str] depends on the salt of the process.  Two processes that differ
    in nothing but that salt, each constructing the default clock and
    calling [event_time(1, action_hint="create_post")], get different
    timestamps, although the seed, the tick duration, the epoch and the call
    are the same. *)
Theorem replay_diverges_across_processes :
  @py_randint (salted_runtime 0) = @py_randint (salted_runtime 1) /\
  (@run (salted_runtime 0) default_clock [EventTime 1 None "create_post"]).1
    = [Returns (Some 27444)] /\
  (@run (salted_runtime 1) default_clock [EventTime 1 None "create_post"]).1
    = [Returns (Some 27445)] /\
  (@run (salted_runtime 0) default_clock [EventTime 1 None "create_post"]).1
    <> (@run (salted_runtime 1) default_clock [EventTime 1 None "create_post"]).1.
Proof.
  split; [reflexivity|].
  assert ((@run (salted_runtime 0) default_clock
             [EventTime 1 None "create_post"]).1 = [Returns (Some 27444)]) as E0
    by (vm_compute; reflexivity).
  assert ((@run (salted_runtime 1) default_clock
             [EventTime 1 None "create_post"]).1 = [Returns (Some 27445)]) as E1
    by (vm_compute; reflexivity).
  split; [exact E0|]. split; [exact E1|]. rewrite E0, E1. discriminate.
Qed.

(** ** Uniqueness within a tick *)

Section Uniqueness.
Context {rt : PyRuntime}.

Lemma step_tick_duration self c :
  tick_duration_s (step self c).2 = tick_duration_s self.
Proof.
  destruct c as [n | a p h]; simpl; [reflexivity|].
  destruct (event_time_cases self a p h) as [[_ E] | [_ Hroom]].
  - rewrite E. now destruct p.
  - destruct (event_time_room self a p h Hroom) as (r & E & _). now rewrite E.
Qed.

(** No call removes a timestamp from a used set. *)
Lemma step_used_mono self c t :
  used_at self t ⊆ used_at (step self c).2 t.
Proof.
  destruct c as [n | a p h]; simpl; [reflexivity|].
  destruct (event_time_cases self a p h) as [[_ E] | [_ Hroom]].
  - rewrite E. now destruct p.
  - destruct (event_time_room self a p h Hroom) as (r & E & _). rewrite E.
    unfold used_at. simpl. destruct (decide (tick self = t)) as [<- | Hne].
    + rewrite lookup_insert_eq. simpl. unfold used_of. set_solver.
    + now rewrite lookup_insert_ne.
Qed.

Lemma trace_cons self c calls :
  trace self (c :: calls) = head_events self c ++ trace (step self c).2 calls.
Proof. reflexivity. Qed.

(** What the event of a call says about its result: an overflow result is
    the parent plus one and lies beyond the tick; any other result lies
    within the tick, and is in the tick's used set after the call. *)
Lemma head_events_spec self c e :
  e ∈ head_events self c ->
  ev_tick e = tick self /\
  (ev_overflow e = true ->
     ev_parent e = Some (ev_result e - 1) /\
     (ev_tick e + 1) * tick_duration_s self - 1 < ev_result e) /\
  (ev_overflow e = false ->
     ev_result e <= (ev_tick e + 1) * tick_duration_s self - 1 /\
     ev_result e ∈ used_at (step self c).2 (ev_tick e) /\
     (ev_collides e = false -> ev_result e ∉ used_at self (ev_tick e))).
Proof.
  destruct c as [n | a p h]; simpl; [intros H; inversion H|].
  destruct (event_time_cases self a p h) as [[Ho E] | [Ho Hroom]].
  - rewrite E. destruct p as [p|]; [|intros H; inversion H].
    intros ->%list_elem_of_singleton. simpl. rewrite Ho.
    split; [reflexivity|]. split; [|discriminate].
    intros _. split; [f_equal; lia|].
    unfold overflows in Ho. apply Z.ltb_lt in Ho. exact Ho.
  - destruct (event_time_room self a p h Hroom) as (r & E & Hr & _).
    rewrite E. intros ->%list_elem_of_singleton. simpl. rewrite Ho.
    split; [reflexivity|]. split; [discriminate|].
    intros _. split; [exact (proj2 Hr)|]. split.
    + unfold used_at. simpl. rewrite lookup_insert_eq. simpl.
      apply elem_of_union. left. now apply elem_of_singleton.
    + intros Hc. apply bool_decide_eq_false in Hc. exact Hc.
Qed.

Lemma trace_event_bounds calls : forall self e,
  e ∈ trace self calls ->
  (ev_overflow e = true ->
     ev_parent e = Some (ev_result e - 1) /\
     (ev_tick e + 1) * tick_duration_s self - 1 < ev_result e) /\
  (ev_overflow e = false ->
     ev_result e <= (ev_tick e + 1) * tick_duration_s self - 1).
Proof.
  induction calls as [|c calls IH]; intros self e He; [inversion He|].
  rewrite trace_cons in He. apply elem_of_app in He as [He | He].
  - destruct (head_events_spec self c e He) as (_ & H1 & H2).
    split; [exact H1|]. intros Ho. exact (proj1 (H2 Ho)).
  - specialize (IH _ _ He). now rewrite step_tick_duration in IH.
Qed.

(** A result that was not a collision when it was returned is in no used
    set the clock held for that tick before the call. *)
Lemma trace_fresh calls : forall self e,
  e ∈ trace self calls ->
  ev_overflow e = false -> ev_collides e = false ->
  ev_result e ∉ used_at self (ev_tick e).
Proof.
  induction calls as [|c calls IH]; intros self e He Ho Hc; [inversion He|].
  rewrite trace_cons in He. apply elem_of_app in He as [He | He].
  - destruct (head_events_spec self c e He) as (_ & _ & H2).
    exact (proj2 (proj2 (H2 Ho)) Hc).
  - intros Hin. apply (IH _ _ He Ho Hc).
    now apply (step_used_mono self c).
Qed.

Lemma head_events_length self c : (length (head_events self c) <= 1)%nat.
Proof.
  destruct c as [n | a p h]; simpl; [lia|].
  destruct (event_time self a p h) as [[r c'] | e]; simpl; lia.
Qed.

Lemma unique_in_tick calls : forall self i j ei ej,
  (i < j)%nat ->
  trace self calls !! i = Some ei ->
  trace self calls !! j = Some ej ->
  ev_tick ei = ev_tick ej ->
  ev_collides ej = false ->
  ~ (ev_overflow ei = true /\ ev_overflow ej = true /\
     ev_parent ei = ev_parent ej) ->
  ev_result ei <> ev_result ej.
Proof.
  induction calls as [|c calls IH]; intros self i j ei ej Hij Hi Hj Ht Hc Hov;
    [inversion Hi|].
  rewrite trace_cons in Hi, Hj.
  pose proof (head_events_length self c) as Hlen.
  destruct (head_events self c) as [|e0 [|? ?]] eqn:Hhead;
    [| | simpl in Hlen; lia].
  - simpl in Hi, Hj. exact (IH _ _ _ _ _ Hij Hi Hj Ht Hc Hov).
  - destruct i as [|i].
    + (* [ei] is the event of the first call, [ej] comes later *)
      simpl in Hi. injection Hi as ->.
      destruct j as [|j]; [lia|]. simpl in Hj.
      apply list_elem_of_lookup_2 in Hj.
      assert (ei ∈ head_events self c) as Hin by (rewrite Hhead; set_solver).
      destruct (head_events_spec self c ei Hin) as (_ & Hi1 & Hi2).
      pose proof (trace_event_bounds _ _ _ Hj) as [Hj1 Hj2].
      rewrite step_tick_duration in Hj1, Hj2.
      destruct (ev_overflow ei) eqn:Oi, (ev_overflow ej) eqn:Oj.
      * destruct (Hi1 eq_refl) as [Pi _], (Hj1 eq_refl) as [Pj _].
        intros Heq. apply Hov. repeat split. rewrite Pi, Pj. now rewrite Heq.
      * destruct (Hi1 eq_refl) as [_ Bi]. specialize (Hj2 eq_refl).
        rewrite Ht in Bi. lia.
      * destruct (Hi2 eq_refl) as [Bi _], (Hj1 eq_refl) as [_ Bj].
        rewrite Ht in Bi. lia.
      * destruct (Hi2 eq_refl) as (_ & Ri & _).
        pose proof (trace_fresh _ _ _ Hj Oj Hc) as Fj.
        rewrite Ht in Ri. intros Heq. apply Fj. now rewrite <- Heq.
    + destruct j as [|j]; [lia|]. simpl in Hi, Hj.
      apply (IH (step self c).2 i j ei ej); [lia | assumption..].
Qed.

End Uniqueness.

(** Two calls with the same parent at the very end of the tick: both take
    the overflow branch and both return the parent plus one, whatever the
    runtime. *)
Lemma overflow_twice_trace {rt : PyRuntime} :
  trace default_clock
    [EventTime 1 (Some 86399) "like"; EventTime 2 (Some 86399) "like"] =
  [ mkEvent 0 (Some 86399) true false 86400;
    mkEvent 0 (Some 86399) true false 86400 ].
Proof.
  assert (tick_end_s default_clock < 86399 + 1) as H by (vm_compute; reflexivity).
  rewrite trace_cons. unfold head_events, step.
  rewrite (event_time_overflow _ _ _ _ H). cbn [snd].
  rewrite trace_cons. unfold head_events, step.
  rewrite (event_time_overflow _ _ _ _ H). reflexivity.
Qed.

(** C4 fails as stated: on the default clock (tick 0, range 0..86399) the
    calls [event_time(1, 86399, "like")] and [event_time(2, 86399, "like")]
    are two calls of the same tick, neither reaches the probe, and both
    return 86400. *)
Lemma uniqueness_counterexample :
  ~ (forall (rt : PyRuntime) (self : VirtualClock) (calls : list call)
            (i j : nat) (ei ej : event),
       (i < j)%nat ->
       trace self calls !! i = Some ei ->
       trace self calls !! j = Some ej ->
       ev_tick ei = ev_tick ej ->
       ev_collides ei = false -> ev_collides ej = false ->
       ev_result ei <> ev_result ej).
Proof.
  intros H.
  refine (H toy_runtime default_clock
            [EventTime 1 (Some 86399) "like"; EventTime 2 (Some 86399) "like"]
            0%nat 1%nat _ _ _ _ _ _ _ _ _);
    try (rewrite overflow_twice_trace; reflexivity); try reflexivity; lia.
Qed.

Section UniquenessLog.
Context {rt : PyRuntime}.

Lemma log_cons self c calls :
  log self (c :: calls) = head_log self c ++ log (step self c).2 calls.
Proof. reflexivity. Qed.

Lemma head_log_events self c : (head_log self c).*2 = head_events self c.
Proof.
  destruct c as [n | a p h]; simpl; [reflexivity|].
  now destruct (event_time self a p h) as [[r self'] | e].
Qed.

(** The events of the log are the trace. *)
Lemma log_events calls : forall self, (log self calls).*2 = trace self calls.
Proof.
  induction calls as [|c calls IH]; intros self; [reflexivity|].
  now rewrite log_cons, trace_cons, fmap_app, head_log_events, IH.
Qed.

(** An entry of the log is a returning call on the clock it names. *)
Lemma log_entry calls : forall self s e,
  (s, e) ∈ log self calls ->
  exists agent_id action_hint self',
    event_time s agent_id (ev_parent e) action_hint
      = Returns (ev_result e, self') /\
    e = event_of s (ev_parent e) (ev_result e).
Proof.
  induction calls as [|c calls IH]; intros self s e He; [inversion He|].
  rewrite log_cons in He. apply elem_of_app in He as [He | He].
  - destruct c as [n | a p h]; simpl in He; [inversion He|].
    destruct (event_time self a p h) as [[r self'] | ?] eqn:E; [|inversion He].
    apply list_elem_of_singleton in He. injection He as -> ->. simpl.
    now exists a, h, self'.
  - now apply (IH (step self c).2).
Qed.

End UniquenessLog.

(** C4, as the code has it: two distinct [event_time] calls made in the same
    tick, neither of which hits the exhaustion case of the probe (the range
    [min_time .. tick_end] of the call fully used; for the proof only the
    later call matters), return different timestamps, unless both take the
    parent-overflow branch with the same parent: that branch returns
    [parent + 1] without consulting or recording anything. *)
Theorem uniqueness_within_tick {rt : PyRuntime} (self : VirtualClock)
    (calls : list call) (i j : nat) (si sj : VirtualClock) (ei ej : event) :
  (i < j)%nat ->
  log self calls !! i = Some (si, ei) ->
  log self calls !! j = Some (sj, ej) ->
  tick si = tick sj ->
  ~ exhausted sj (ev_parent ej) ->
  ~ (overflows si (ev_parent ei) = true /\
     overflows sj (ev_parent ej) = true /\
     ev_parent ei = ev_parent ej) ->
  ev_result ei <> ev_result ej.
Proof.
  intros Hij Hi Hj Ht Hex Hov.
  destruct (log_entry calls self si ei (list_elem_of_lookup_2 _ _ _ Hi))
    as (ai & hi & si' & Ei & Di).
  destruct (log_entry calls self sj ej (list_elem_of_lookup_2 _ _ _ Hj))
    as (aj & hj & sj' & Ej & Dj).
  apply (unique_in_tick calls self i j ei ej Hij).
  - rewrite <- log_events, list_lookup_fmap, Hi. reflexivity.
  - rewrite <- log_events, list_lookup_fmap, Hj. reflexivity.
  - rewrite Di, Dj. exact Ht.
  - rewrite Dj. simpl. destruct (overflows sj (ev_parent ej)) eqn:Ho;
      [reflexivity|]. simpl. apply bool_decide_eq_false. intros Hin.
    apply Hex. split; [exact Ho|].
    now apply (event_time_collides_iff_full sj aj (ev_parent ej) hj
                 (ev_result ej) sj' Ho Ej).
  - intros (Oi & Oj & Hp). apply Hov.
    rewrite Di in Oi. rewrite Dj in Oj. simpl in Oi, Oj. now repeat split.
Qed.

Lemma uniqueness_within_tick_witness :
  ev_result (mkEvent 0 None false false 27444) <>
  ev_result (mkEvent 0 (Some 27444) false false 65141).
Proof.
  apply (@uniqueness_within_tick toy_runtime default_clock
           [EventTime 1 None "create_post"; EventTime 2 (Some 27444) "comment";
            EventTime 3 (Some 86399) "like"] 0%nat 1%nat
           default_clock
           (@step toy_runtime default_clock
              (EventTime 1 None "create_post")).2).
  - lia.
  - vm_compute. reflexivity.
  - vm_compute. reflexivity.
  - reflexivity.
  - intros [_ Hfull].
    assert (used_of (@step toy_runtime default_clock
                       (EventTime 1 None "create_post")).2 = {[ 27444 ]}) as Eu
      by (vm_compute; reflexivity).
    assert (tick_end_s (@step toy_runtime default_clock
                          (EventTime 1 None "create_post")).2 = 86399) as Ee
      by (vm_compute; reflexivity).
    unfold range_full in Hfull. specialize (Hfull (27444 + 1)).
    rewrite Eu, Ee in Hfull. cbn [ev_parent min_time_of] in Hfull.
    apply elem_of_singleton in Hfull; lia.
  - intros (H & _). vm_compute in H. discriminate H.
Defined.

(** ** Which inputs decide the returned timestamp *)

Section Purity.
Context {rt : PyRuntime}.




End Purity.



(** ** Float division and truncation *)

(** [log2_quotient a d] is the exponent of the leading bit of [a / d]. *)
Lemma log2_quotient_spec a d :
  0 < a -> 0 < d ->
  let k := log2_quotient a d in
  (0 <= k -> d * 2 ^ k <= a < d * 2 ^ (k + 1)) /\
  (k < 0 -> d <= a * 2 ^ (- k) /\ a * 2 ^ (- k - 1) < d).
Proof.
  intros Ha Hd. unfold log2_quotient.
  pose proof (Z.log2_spec a Ha) as [La Ua].
  pose proof (Z.log2_spec d Hd) as [Ld Ud].
  pose proof (Z.log2_nonneg a) as Na. pose proof (Z.log2_nonneg d) as Nd.
  set (la := Z.log2 a) in *. set (ld := Z.log2 d) in *.
  set (k0 := la - ld).
  assert (forall x y, 0 <= x -> 0 <= y -> 2 ^ (x + y) = 2 ^ x * 2 ^ y) as Hpow
    by (intros; now apply Z.pow_add_r).
  assert (forall x, 0 <= x -> 0 < 2 ^ x) as Hpos
    by (intros; now apply Z.pow_pos_nonneg).
  destruct (0 <=? k0) eqn:K0; [apply Z.leb_le in K0 | apply Z.leb_gt in K0].
  - (* [ld <= la] *)
    assert (la = ld + k0) as Ela by (unfold k0; lia).
    pose proof (Hpos k0 K0) as Pk. pose proof (Hpos ld Nd) as Pd.
    assert (2 ^ la = 2 ^ ld * 2 ^ k0) as E1 by (rewrite Ela; now apply Hpow).
    assert (2 ^ Z.succ la = 2 * 2 ^ ld * 2 ^ k0) as E2.
    { rewrite Z.pow_succ_r by lia. rewrite E1. ring. }
    assert (2 ^ Z.succ ld = 2 * 2 ^ ld) as E3 by (rewrite Z.pow_succ_r; lia).
    assert (2 ^ (k0 + 1) = 2 * 2 ^ k0) as E4
      by (rewrite Z.add_1_r, Z.pow_succ_r; lia).
    destruct (d * 2 ^ k0 <=? a) eqn:T; [apply Z.leb_le in T | apply Z.leb_gt in T];
      cbv zeta.
    + split; [|lia]. intros _. split; [exact T|].
      rewrite E4. nia.
    + destruct (Z.eq_dec k0 0) as [K | K].
      * split; [lia|]. intros _. rewrite K in *.
        replace (- (0 - 1)) with 1 by lia. replace (- (0 - 1) - 1) with 0 by lia.
        change (2 ^ 0) with 1 in *. change (2 ^ 1) with 2.
        split; [nia | lia].
      * split; [|lia]. intros _.
        replace (k0 - 1 + 1) with k0 by lia. split; [|exact T].
        assert (2 ^ k0 = 2 * 2 ^ (k0 - 1)) as E5.
        { replace k0 with (Z.succ (k0 - 1)) at 1 by lia.
          rewrite Z.pow_succ_r; lia. }
        pose proof (Hpos (k0 - 1) ltac:(lia)) as Pk1.
        nia.
  - (* [la < ld] *)
    assert (ld = la + (- k0)) as Eld by (unfold k0; lia).
    pose proof (Hpos (- k0) ltac:(lia)) as Pk. pose proof (Hpos la Na) as Pa.
    assert (2 ^ ld = 2 ^ la * 2 ^ (- k0)) as E1
      by (rewrite Eld at 1; apply Hpow; lia).
    assert (2 ^ Z.succ la = 2 * 2 ^ la) as E2 by (rewrite Z.pow_succ_r; lia).
    assert (2 ^ Z.succ ld = 2 * 2 ^ la * 2 ^ (- k0)) as E3.
    { rewrite Z.pow_succ_r by lia. rewrite E1. ring. }
    assert (2 ^ (- k0) = 2 * 2 ^ (- k0 - 1)) as E4.
    { replace (- k0) with (Z.succ (- k0 - 1)) at 1 by lia.
      rewrite Z.pow_succ_r; lia. }
    pose proof (Hpos (- k0 - 1) ltac:(lia)) as Pk1.
    destruct (d <=? a * 2 ^ (- k0)) eqn:T;
      [apply Z.leb_le in T | apply Z.leb_gt in T]; cbv zeta.
    + split; [lia|]. intros _. split; [exact T|]. nia.
    + split; [lia|]. intros _.
      replace (- (k0 - 1)) with (Z.succ (- k0)) by lia.
      replace (Z.succ (- k0) - 1) with (- k0) by lia.
      rewrite Z.pow_succ_r by lia. split; [nia | exact T].
Qed.

Lemma round_half_even_exact q b : 0 < b -> round_half_even (q * b) b = q.
Proof.
  intros Hb. unfold round_half_even.
  rewrite Z.mod_mul, Z.div_mul by lia.
  now replace (2 * 0 ?= b) with Lt by (symmetry; apply Z.compare_lt_iff; lia).
Qed.

(** Rounding moves to one of the two neighbouring integers, and goes up only
    from the upper half. *)
Lemma round_half_even_cases a b :
  0 < b ->
  round_half_even a b = a / b \/
  (round_half_even a b = a / b + 1 /\ b <= 2 * (a mod b)).
Proof.
  intros Hb. unfold round_half_even.
  destruct (2 * (a mod b) ?= b) eqn:C.
  - apply Z.compare_eq_iff in C. destruct (Z.even (a / b)); [now left | right; lia].
  - now left.
  - apply Z.compare_gt_iff in C. right. lia.
Qed.

(** On a whole multiple of [d] below [2^53 * d] the division is exact, and
    [int] gives the quotient back. *)
Lemma int_truediv_exact v d :
  0 < d -> Z.abs v < 2 ^ 53 ->
  int_of_float (truediv (v * d) d) = v.
Proof.
  intros Hd Hv. unfold truediv.
  destruct (v * d =? 0) eqn:Z0.
  - apply Z.eqb_eq in Z0. unfold int_of_float. simpl. nia.
  - apply Z.eqb_neq in Z0.
    assert (v <> 0) as Hv0 by (intros ->; lia).
    assert (Z.abs (v * d) = Z.abs v * d) as Ea by (rewrite Z.abs_mul; lia).
    assert (Z.sgn (v * d) = Z.sgn v) as Es by (rewrite Z.sgn_mul; lia).
    rewrite Ea, Es.
    pose proof (log2_quotient_spec (Z.abs v * d) d ltac:(nia) Hd) as [Hk _].
    cbv zeta in Hk. set (k := log2_quotient (Z.abs v * d) d) in *.
    assert (k <= 52) as Hk52.
    { destruct (Z_lt_le_dec k 0) as [|K]; [lia|].
      destruct (Hk K) as [Hlo _].
      assert (2 ^ k <= Z.abs v) as P by nia.
      destruct (Z_lt_le_dec k 53) as [|K53]; [lia|].
      pose proof (Z.pow_le_mono_r 2 53 k ltac:(lia) K53). lia. }
    unfold int_of_float. simpl fexp. simpl fmant.
    destruct (0 <=? k - 52) eqn:E; [apply Z.leb_le in E | apply Z.leb_gt in E].
    + replace (k - 52) with 0 by lia. change (2 ^ 0) with 1.
      rewrite !Z.mul_1_r, round_half_even_exact by lia. lia.
    + set (p := 2 ^ (- (k - 52))).
      assert (0 < p) as Hp by (apply Z.pow_pos_nonneg; lia).
      replace (Z.abs v * d * p) with (Z.abs v * p * d) by ring.
      rewrite round_half_even_exact by lia.
      rewrite Z.mul_assoc, Z.quot_mul by lia. lia.
Qed.

(** Scaling by [p] before rounding cannot carry [a / d] to the next integer
    as long as [d < 2 * p]. *)
Lemma round_scaled_floor a d p :
  0 <= a -> 0 < d -> 0 < p -> d < 2 * p ->
  round_half_even (a * p) d / p = a / d.
Proof.
  intros Ha Hd Hp Hdp.
  pose proof (Z.div_mod a d ltac:(lia)) as Ea.
  pose proof (Z.mod_pos_bound a d Hd) as Hf.
  pose proof (Z.div_mod (a * p) d ltac:(lia)) as EA.
  pose proof (Z.mod_pos_bound (a * p) d Hd) as Hr.
  set (q := a / d) in *. set (f := a mod d) in *.
  set (Q := a * p / d) in *. set (r := (a * p) mod d) in *.
  assert (d * Q + r = d * (q * p) + f * p) as E by nia.
  assert (q * p <= Q) as Hlo by nia.
  assert (Q < (q + 1) * p) as Hhi by nia.
  symmetry. apply (Z.div_unique_pos _ _ _ (round_half_even (a * p) d - q * p)); [|lia].
  destruct (round_half_even_cases (a * p) d Hd) as [-> | [-> Hup]];
    fold Q; fold r in Hup || idtac.
  - lia.
  - split; [lia|].
    destruct (Z.eq_dec (Q + 1) ((q + 1) * p)) as [Heq | Hne]; [|lia].
    exfalso. assert (r = d - (d - f) * p) as Er by nia. nia.
Qed.

(** Within [2^34 * d] of zero, for a divisor below [2^20], [int(n / d)] is
    the integer quotient truncated toward zero. *)
Lemma int_truediv_trunc n d :
  0 < d < 2 ^ 20 -> Z.abs n < 2 ^ 34 * d ->
  int_of_float (truediv n d) = Z.quot n d.
Proof.
  intros [Hd Hd20] Hn. unfold truediv.
  destruct (n =? 0) eqn:Z0.
  - apply Z.eqb_eq in Z0. subst n. reflexivity.
  - apply Z.eqb_neq in Z0.
    pose proof (log2_quotient_spec (Z.abs n) d ltac:(lia) Hd) as [Hk _].
    cbv zeta in Hk. set (k := log2_quotient (Z.abs n) d) in *.
    assert (k <= 33) as Hk33.
    { destruct (Z_lt_le_dec k 0) as [|K]; [lia|].
      destruct (Hk K) as [Hlo _].
      assert (2 ^ k < 2 ^ 34) as P by nia.
      destruct (Z_lt_le_dec k 34) as [|K34]; [lia|].
      pose proof (Z.pow_le_mono_r 2 34 k ltac:(lia) K34). lia. }
    unfold int_of_float. simpl fexp. simpl fmant.
    replace (0 <=? k - 52) with false by (symmetry; apply Z.leb_gt; lia).
    set (p := 2 ^ (- (k - 52))).
    assert (2 ^ 19 <= p) as Hp
      by (apply Z.pow_le_mono_r; lia).
    assert (d < 2 * p) as Hdp.
    { change (2 ^ 20) with (2 * 2 ^ 19) in Hd20. lia. }
    pose proof (round_scaled_floor (Z.abs n) d p ltac:(lia) Hd ltac:(lia) Hdp)
      as Hm.
    set (m := round_half_even (Z.abs n * p) d) in *.
    assert (0 <= m) as Hm0.
    { destruct (round_half_even_cases (Z.abs n * p) d Hd) as [E | [E _]];
        fold m in E; rewrite E;
        pose proof (Z.div_pos (Z.abs n * p) d ltac:(nia) Hd); lia. }
    destruct (Z_lt_le_dec n 0) as [Hneg | Hpos].
    + rewrite Z.sgn_neg by lia.
      replace (-1 * m) with (- m) by lia.
      rewrite Z.quot_opp_l by lia.
      rewrite Z.quot_div_nonneg by lia. rewrite Hm.
      replace n with (- Z.abs n) at 2 by lia.
      rewrite Z.quot_opp_l by lia. rewrite Z.quot_div_nonneg by lia. reflexivity.
    + rewrite Z.sgn_pos by lia. rewrite Z.mul_1_l.
      rewrite Z.quot_div_nonneg by lia. rewrite Hm.
      replace n with (Z.abs n) at 2 by lia.
      rewrite Z.quot_div_nonneg by lia. reflexivity.
Qed.

(** ** Conversion to and from datetimes *)

Lemma td_us_timedelta_of_us us : td_us (timedelta_of_us us) = us.
Proof.
  unfold td_us, timedelta_of_us. simpl.
  pose proof (Z.div_mod us 1000000 ltac:(lia)).
  pose proof (Z.div_mod (us / 1000000) 86400 ltac:(lia)).
  lia.
Qed.

(** [from_datetime] is [int] of the float quotient of the microseconds
    between the datetime and the epoch by [10^6]. *)
Lemma from_datetime_unfold self dt :
  from_datetime self dt =
  int_of_float (truediv (dt_us dt - dt_us (epoch self)) 1000000).
Proof.
  unfold from_datetime, total_seconds, datetime_sub.
  change (10 ^ 6) with 1000000.
  pose proof (td_us_timedelta_of_us (dt_us dt - dt_us (epoch self))) as E.
  unfold td_us in E. now rewrite E.
Qed.

(** What [to_datetime] returns, when it returns. *)
Lemma to_datetime_returns self v dt :
  to_datetime self v = Returns dt ->
  dt_us dt = dt_us (epoch self) + v * 1000000 /\
  Z.abs v < 1000000000 * 86400.
Proof.
  unfold to_datetime, timedelta_seconds, mbind, outcome_bind.
  destruct (_ || _) eqn:B; [discriminate|].
  apply orb_false_elim in B as [B1 B2].
  apply Z.ltb_ge in B1, B2. simpl in B1, B2.
  rewrite Z.div_mul in B1, B2 by lia.
  unfold datetime_add. rewrite td_us_timedelta_of_us.
  destruct (_ || _); [discriminate|]. intros [= <-]. simpl.
  split; [reflexivity|].
  pose proof (Z.div_mod v 86400 ltac:(lia)).
  pose proof (Z.mod_pos_bound v 86400 ltac:(lia)). lia.
Qed.

(** [to_datetime] returns whenever the instant is a datetime. *)
Lemma to_datetime_in_range self v :
  0 <= dt_us (epoch self) + v * 1000000 < datetime_limit ->
  valid_datetime (epoch self) ->
  to_datetime self v =
  Returns (mkDatetime (dt_us (epoch self) + v * 1000000)).
Proof.
  intros Hv He. unfold valid_datetime, datetime_limit in *.
  unfold to_datetime, timedelta_seconds, mbind, outcome_bind.
  assert (-999999999 <= v / 86400 <= 999999999) as Hdays.
  { pose proof (Z.div_mod v 86400 ltac:(lia)).
    pose proof (Z.mod_pos_bound v 86400 ltac:(lia)). lia. }
  simpl days. rewrite Z.div_mul by lia.
  replace (v / 86400 <? -999999999) with false by (symmetry; apply Z.ltb_ge; lia).
  replace (999999999 <? v / 86400) with false by (symmetry; apply Z.ltb_ge; lia).
  simpl. unfold datetime_add. rewrite td_us_timedelta_of_us.
  replace (dt_us (epoch self) + v * 1000000 <? 0) with false
    by (symmetry; apply Z.ltb_ge; lia).
  replace (datetime_limit <=? dt_us (epoch self) + v * 1000000) with false
    by (symmetry; apply Z.leb_gt; unfold datetime_limit; lia).
  reflexivity.
Qed.

Example from_datetime_rounds_up_far_from_epoch :
  valid_datetime early_2600_sub_second /\
  from_datetime default_clock early_2600_sub_second = 18176832001 /\
  (dt_us early_2600_sub_second - dt_us (epoch default_clock)) / 1000000
    = 18176832000.
Proof. vm_compute. repeat split; discriminate. Qed.

(** C9 fails as stated: for the valid instant half a second before the
    epoch, [d - epoch] is -0.5 s, whose floor is -1; [from_datetime] returns
    [int(-0.5)], which is 0. *)
Lemma from_datetime_not_floor :
  valid_datetime half_second_before_epoch /\
  (dt_us half_second_before_epoch - dt_us (epoch default_clock)) / 1000000
    = -1 /\
  from_datetime default_clock half_second_before_epoch = 0.
Proof. vm_compute. repeat split; discriminate. Qed.

(** C9, as the code has it: [from_datetime] takes the offset from the epoch
    in seconds as a float and truncates it toward zero.  For datetimes a
    whole number of seconds from the epoch, before or after it, the result
    is that number.  Within [2^34] seconds of the epoch the result is the
    offset truncated toward zero: the floor at or after the epoch, one more
    than the floor for an instant before the epoch with a fraction of a
    second.  And [from_datetime (to_datetime v) = v] for every integer [v]
    for which [to_datetime v] returns, which it does whenever the epoch
    plus [v] seconds is a datetime. *)
Theorem from_datetime_truncates (self : VirtualClock) :
  (forall dt v,
     valid_datetime dt -> valid_datetime (epoch self) ->
     dt_us dt - dt_us (epoch self) = v * 1000000 ->
     from_datetime self dt = v) /\
  (forall dt,
     Z.abs (dt_us dt - dt_us (epoch self)) < 2 ^ 34 * 1000000 ->
     from_datetime self dt = Z.quot (dt_us dt - dt_us (epoch self)) 1000000 /\
     (0 <= dt_us dt - dt_us (epoch self) ->
      from_datetime self dt = (dt_us dt - dt_us (epoch self)) / 1000000) /\
     (dt_us dt - dt_us (epoch self) < 0 ->
      (dt_us dt - dt_us (epoch self)) mod 1000000 <> 0 ->
      from_datetime self dt = (dt_us dt - dt_us (epoch self)) / 1000000 + 1)) /\
  (forall v dt,
     to_datetime self v = Returns dt -> from_datetime self dt = v) /\
  (forall v,
     valid_datetime (epoch self) ->
     0 <= dt_us (epoch self) + v * 1000000 < datetime_limit ->
     exists dt, to_datetime self v = Returns dt /\ from_datetime self dt = v).
Proof.
  assert (forall v dt,
            to_datetime self v = Returns dt -> from_datetime self dt = v) as RT.
  { intros v dt Hto. destruct (to_datetime_returns self v dt Hto) as [E Hv].
    rewrite from_datetime_unfold.
    replace (dt_us dt - dt_us (epoch self)) with (v * 1000000) by lia.
    apply int_truediv_exact; [lia|].
    change (2 ^ 53) with 9007199254740992. lia. }
  split; [|split; [|split]].
  - intros dt v Hdt He E. rewrite from_datetime_unfold, E.
    apply int_truediv_exact; [lia|].
    unfold valid_datetime, datetime_limit in *.
    change (2 ^ 53) with 9007199254740992. lia.
  - intros dt Hnear. set (us := dt_us dt - dt_us (epoch self)) in *.
    assert (from_datetime self dt = Z.quot us 1000000) as E.
    { rewrite from_datetime_unfold. fold us.
      apply int_truediv_trunc; [|exact Hnear].
      change (2 ^ 20) with 1048576. lia. }
    split; [exact E|]. split.
    + intros Hpos. rewrite E. apply Z.quot_div_nonneg; lia.
    + intros Hneg Hfrac. rewrite E.
      pose proof (Z.quot_rem' us 1000000) as Eq.
      pose proof (Z.rem_bound_pos_neg us 1000000 ltac:(lia) ltac:(lia)) as Hrem.
      pose proof (Z.div_mod us 1000000 ltac:(lia)) as Ed.
      pose proof (Z.mod_pos_bound us 1000000 ltac:(lia)) as Hmod.
      lia.
  - exact RT.
  - intros v He Hv. eexists. split.
    + now apply to_datetime_in_range.
    + apply (RT v). now apply to_datetime_in_range.
Qed.

Lemma from_datetime_truncates_witness :
  from_datetime default_clock (mkDatetime (dt_us default_epoch - 3000000)) = -3 /\
  from_datetime default_clock half_second_before_epoch
    = (dt_us half_second_before_epoch - dt_us (epoch default_clock)) / 1000000 + 1 /\
  from_datetime default_clock (mkDatetime (dt_us default_epoch + 1500000))
    = (1500000 / 1000000) /\
  (exists dt, to_datetime default_clock 86400 = Returns dt /\
              from_datetime default_clock dt = 86400).
Proof.
  pose proof (from_datetime_truncates default_clock) as (H1 & H2 & H3 & H4).
  split; [|split; [|split]].
  - apply (H1 (mkDatetime (dt_us default_epoch - 3000000)) (-3));
      vm_compute; try reflexivity; repeat split; discriminate.
  - apply (H2 half_second_before_epoch); vm_compute; try reflexivity;
      discriminate.
  - apply (H2 (mkDatetime (dt_us default_epoch + 1500000)));
      vm_compute; try reflexivity; discriminate.
  - apply H4; vm_compute; repeat split; discriminate.
Defined.

(** ** The probe as a search for the first free timestamp *)

(** After [max_attempts - attempts] iterations from [g], the probe stands on
    the [k]-th candidate after [g]; the candidates before it are all used,
    and it is free unless the iterations ran out. *)
Lemma probe_first_free used min_time max_time max_attempts fuel g a :
  Z.of_nat fuel = max_attempts - a ->
  exists k,
    (k <= fuel)%nat /\
    (probe fuel used min_time max_time max_attempts g a).1 =
      Nat.iter k (next_candidate min_time max_time) g /\
    (forall j, (j < k)%nat ->
       Nat.iter j (next_candidate min_time max_time) g ∈ used) /\
    ((probe fuel used min_time max_time max_attempts g a).1 ∉ used \/ k = fuel).
Proof.
  revert g a. induction fuel as [|fuel IH]; intros g a Hfuel.
  - exists 0%nat. repeat split; [lia | intros j Hj; lia | now right].
  - rewrite probe_unfold. unfold probe_guard. simpl fst. simpl snd.
    replace (a <? max_attempts) with true by (symmetry; apply Z.ltb_lt; lia).
    rewrite andb_true_r.
    destruct (bool_decide (g ∈ used)) eqn:G.
    + apply bool_decide_eq_true in G.
      destruct (IH (next_candidate min_time max_time g) (a + 1) ltac:(lia))
        as (k & Hk & Er & Hused & Hend).
      exists (S k). split; [lia|]. split; [|split].
      * rewrite Nat.iter_succ_r. exact Er.
      * intros [|j] Hj; [exact G|]. rewrite Nat.iter_succ_r. apply Hused. lia.
      * destruct Hend as [Hfree | ->]; [now left | now right].
    + apply bool_decide_eq_false in G.
      exists 0%nat. repeat split; [lia | intros j Hj; lia | now left].
Qed.

(** A full turn of the probe comes back to where it started. *)
Lemma next_candidate_full_turn min_time max_time g :
  min_time <= g <= max_time ->
  Nat.iter (Z.to_nat (max_time - min_time + 1))
           (next_candidate min_time max_time) g = g.
Proof.
  intros Hg. rewrite next_candidate_iter by exact Hg.
  rewrite Z2Nat.id by lia.
  replace (g - min_time + (max_time - min_time + 1))
    with (g - min_time + 1 * (max_time - min_time + 1)) by lia.
  rewrite Z.mod_add by lia. rewrite Z.mod_small; lia.
Qed.

Section ProbeSearch.
Context {rt : PyRuntime}.

(** On the branch with room, [event_time] returns what the probe reaches
    from the drawn timestamp. *)
Lemma event_time_room_drawn self agent_id parent_time action_hint :
  min_time_of self parent_time <= tick_end_s self ->
  fst <$> event_time self agent_id parent_time action_hint =
  Returns
    (probe (Z.to_nat (tick_end_s self - min_time_of self parent_time + 1))
           (used_of self) (min_time_of self parent_time) (tick_end_s self)
           (tick_end_s self - min_time_of self parent_time + 1)
           (drawn self agent_id parent_time action_hint) 0).1.
Proof.
  intros Hroom. unfold event_time.
  change (match parent_time with
          | Some p => p + 1
          | None => tick_start_s self
          end) with (min_time_of self parent_time).
  replace (tick_end_s self <? min_time_of self parent_time) with false
    by (symmetry; apply Z.ltb_ge; lia).
  reflexivity.
Qed.

Lemma drawn_in_range self agent_id parent_time action_hint :
  min_time_of self parent_time <= tick_end_s self ->
  min_time_of self parent_time
    <= drawn self agent_id parent_time action_hint <= tick_end_s self.
Proof. intros H. unfold drawn. now apply py_randint_range. Qed.

Lemma event_time_probe_search (self : VirtualClock) (agent_id : Z)
    (parent_time : option Z) (action_hint : string) :
  min_time_of self parent_time <= tick_end_s self ->
  exists r k,
    fst <$> event_time self agent_id parent_time action_hint = Returns r /\
    Z.of_nat k <= tick_end_s self - min_time_of self parent_time + 1 /\
    r = Nat.iter k (next_candidate (min_time_of self parent_time)
                                   (tick_end_s self))
                 (drawn self agent_id parent_time action_hint) /\
    (forall j, (j < k)%nat ->
       Nat.iter j (next_candidate (min_time_of self parent_time)
                                  (tick_end_s self))
                (drawn self agent_id parent_time action_hint) ∈ used_of self) /\
    (r ∉ used_of self \/
     (range_full (used_of self) (min_time_of self parent_time) (tick_end_s self)
      /\ r = drawn self agent_id parent_time action_hint)).
Proof.
  intros Hroom. rewrite event_time_room_drawn by exact Hroom.
  pose proof (drawn_in_range self agent_id parent_time action_hint Hroom) as Hg.
  set (lo := min_time_of self parent_time) in *.
  set (hi := tick_end_s self) in *.
  set (g := drawn self agent_id parent_time action_hint) in *.
  destruct (probe_first_free (used_of self) lo hi (hi - lo + 1)
              (Z.to_nat (hi - lo + 1)) g 0 ltac:(lia))
    as (k & Hk & Er & Hused & Hend).
  eexists _, k. split; [reflexivity|]. split; [lia|]. split; [exact Er|].
  split; [exact Hused|].
  destruct Hend as [Hfree | ->]; [now left|].
  destruct (decide ((probe (Z.to_nat (hi - lo + 1)) (used_of self) lo hi
                           (hi - lo + 1) g 0).1 ∈ used_of self))
    as [Hin | Hfree]; [|now left].
  right. split.
  - now apply (probe_collision_full _ lo hi g Hg).
  - rewrite Er. now apply next_candidate_full_turn.
Qed.

(** Linear probing: on the branch with room, [event_time] returns the first
    timestamp that is not yet used in the tick, counting from the drawn one
    upward and wrapping from [tick_end] to [min_time]; when there is none,
    it returns the drawn one. *)
Theorem event_time_first_free (self : VirtualClock) (agent_id : Z)
    (parent_time : option Z) (action_hint : string) :
  min_time_of self parent_time <= tick_end_s self ->
  exists r k,
    fst <$> event_time self agent_id parent_time action_hint = Returns r /\
    Z.of_nat k <= tick_end_s self - min_time_of self parent_time + 1 /\
    r = Nat.iter k (next_candidate (min_time_of self parent_time)
                                   (tick_end_s self))
                 (drawn self agent_id parent_time action_hint) /\
    (forall j, (j < k)%nat ->
       Nat.iter j (next_candidate (min_time_of self parent_time)
                                  (tick_end_s self))
                (drawn self agent_id parent_time action_hint) ∈ used_of self) /\
    (r ∉ used_of self \/
     (range_full (used_of self) (min_time_of self parent_time) (tick_end_s self)
      /\ r = drawn self agent_id parent_time action_hint)).
Proof. apply event_time_probe_search. Qed.

End ProbeSearch.

Lemma event_time_first_free_witness :
  exists r k,
    fst <$> @event_time toy_runtime two_second_clock_after_agent2 1 None ""
      = Returns r /\
    Z.of_nat k <= tick_end_s two_second_clock_after_agent2
                  - min_time_of two_second_clock_after_agent2 None + 1 /\
    r = Nat.iter k (next_candidate (min_time_of two_second_clock_after_agent2 None)
                                   (tick_end_s two_second_clock_after_agent2))
                 (@drawn toy_runtime two_second_clock_after_agent2 1 None "") /\
    (forall j, (j < k)%nat ->
       Nat.iter j (next_candidate (min_time_of two_second_clock_after_agent2 None)
                                  (tick_end_s two_second_clock_after_agent2))
                (@drawn toy_runtime two_second_clock_after_agent2 1 None "")
         ∈ used_of two_second_clock_after_agent2) /\
    (r ∉ used_of two_second_clock_after_agent2 \/
     (range_full (used_of two_second_clock_after_agent2)
                 (min_time_of two_second_clock_after_agent2 None)
                 (tick_end_s two_second_clock_after_agent2)
      /\ r = @drawn toy_runtime two_second_clock_after_agent2 1 None "")).
Proof.
  apply (@event_time_first_free toy_runtime two_second_clock_after_agent2 1
           None "").
  vm_compute. discriminate.
Defined.

(** ** Effect, frame and errors of [event_time] *)

Section EventTimeEffect.
Context {rt : PyRuntime}.

(** [event_time] returns the drawn timestamp itself in two cases: when it is
    not yet used in the tick, and when every timestamp of the range is used.
    In the second case the returned timestamp is a duplicate, the used set
    of the tick stays as it was, and the call is still counted. *)
Theorem event_time_returns_draw (self : VirtualClock) (agent_id : Z)
    (parent_time : option Z) (action_hint : string) :
  min_time_of self parent_time <= tick_end_s self ->
  (drawn self agent_id parent_time action_hint ∉ used_of self ->
   fst <$> event_time self agent_id parent_time action_hint =
     Returns (drawn self agent_id parent_time action_hint)) /\
  (range_full (used_of self) (min_time_of self parent_time) (tick_end_s self) ->
   exists self',
     event_time self agent_id parent_time action_hint =
       Returns (drawn self agent_id parent_time action_hint, self') /\
     drawn self agent_id parent_time action_hint ∈ used_of self /\
     used_at self' (tick self) = used_of self /\
     event_index_of self' agent_id = event_index_of self agent_id + 1).
Proof.
  intros Hroom.
  destruct (event_time_probe_search self agent_id parent_time action_hint Hroom)
    as (r & k & E & _ & Er & Hused & Hend).
  pose proof (drawn_in_range self agent_id parent_time action_hint Hroom) as Hg.
  split.
  - intros Hfree. rewrite E. f_equal.
    destruct k as [|k]; [exact Er|].
    exfalso. apply Hfree. apply (Hused 0%nat). lia.
  - intros Hfull.
    destruct (event_time_room self agent_id parent_time action_hint Hroom)
      as (r0 & E0 & Hr0 & _).
    rewrite E0 in E. injection E as ->.
    assert (r = drawn self agent_id parent_time action_hint) as Edraw.
    { destruct Hend as [Hfree | [_ ?]]; [|assumption].
      exfalso. apply Hfree. apply Hfull. exact Hr0. }
    rewrite Edraw in E0. eexists. split; [exact E0|].
    split; [now apply Hfull|]. split.
    + unfold used_at. simpl. rewrite lookup_insert_eq. simpl.
      apply subseteq_union_1_L, singleton_subseteq_l. now apply Hfull.
    + unfold event_index_of at 1. simpl. now rewrite lookup_insert_eq.
Qed.

(** What a returning [event_time] call changes and what it leaves: never the
    tick, the configuration or the stored random source; on the branch with
    room the counter of [(tick, agent_id)] goes up by one, the returned
    timestamp joins the used set of the current tick, and the counters of
    other keys and the used sets of other ticks are untouched. *)
Theorem event_time_effect_and_frame (self self' : VirtualClock)
    (agent_id r : Z) (parent_time : option Z) (action_hint : string) :
  event_time self agent_id parent_time action_hint = Returns (r, self') ->
  (tick self' = tick self /\
   tick_duration_s self' = tick_duration_s self /\
   epoch self' = epoch self /\
   seed self' = seed self /\
   _rng self' = _rng self) /\
  (overflows self parent_time = false ->
   event_index_of self' agent_id = event_index_of self agent_id + 1 /\
   (forall key, key <> (tick self, agent_id) ->
      _event_counter self' !! key = _event_counter self !! key) /\
   used_at self' (tick self) = {[ r ]} ∪ used_at self (tick self) /\
   (forall t, t <> tick self -> used_at self' t = used_at self t)).
Proof.
  intros E.
  destruct (event_time_cases self agent_id parent_time action_hint)
    as [[Ho E'] | [Ho Hroom]].
  - rewrite E in E'. destruct parent_time as [p|]; [|discriminate E'].
    injection E' as -> ->. split; [repeat split|]. rewrite Ho. discriminate.
  - destruct (event_time_room self agent_id parent_time action_hint Hroom)
      as (r0 & E0 & _).
    rewrite E in E0. injection E0 as -> ->. simpl.
    split; [repeat split|]. intros _. split; [|split; [|split]].
    + unfold event_index_of at 1. simpl. now rewrite lookup_insert_eq.
    + intros key Hkey. now rewrite lookup_insert_ne.
    + unfold used_at. simpl. now rewrite lookup_insert_eq.
    + intros t Ht. unfold used_at. simpl. now rewrite lookup_insert_ne.
Qed.

(** The only way [event_time] raises: a call without parent on a clock whose
    tick duration is zero or negative, which evaluates [None + 1]. *)
Theorem event_time_raises_iff (self : VirtualClock) (agent_id : Z)
    (parent_time : option Z) (action_hint : string) (e : exn) :
  event_time self agent_id parent_time action_hint = Raises e <->
  parent_time = None /\ tick_duration_s self <= 0 /\ e = TypeError.
Proof.
  split.
  - intros E.
    destruct (event_time_cases self agent_id parent_time action_hint)
      as [[Ho E'] | [Ho Hroom]].
    + rewrite E in E'. destruct parent_time as [p|]; [discriminate E'|].
      injection E' as ->. unfold overflows in Ho. apply Z.ltb_lt in Ho.
      simpl in Ho. unfold tick_start_s, tick_end_s in Ho.
      repeat split. lia.
    + destruct (event_time_room self agent_id parent_time action_hint Hroom)
        as (r0 & E0 & _). rewrite E in E0. discriminate E0.
  - intros (-> & Hd & ->). apply event_time_no_parent_no_room.
    unfold tick_start_s, tick_end_s. lia.
Qed.

(** A returned timestamp tells which branch produced it: it lies beyond the
    end of the tick exactly when the call took the parent-overflow branch. *)
Theorem overflow_iff_beyond_tick_end (self self' : VirtualClock)
    (agent_id r : Z) (parent_time : option Z) (action_hint : string) :
  event_time self agent_id parent_time action_hint = Returns (r, self') ->
  overflows self parent_time = true <-> tick_end_s self < r.
Proof.
  intros E.
  destruct (event_time_cases self agent_id parent_time action_hint)
    as [[Ho E'] | [Ho Hroom]].
  - rewrite E in E'. destruct parent_time as [p|]; [|discriminate E'].
    injection E' as -> _. split; [|intros _; exact Ho].
    intros _. unfold overflows in Ho. apply Z.ltb_lt in Ho. exact Ho.
  - destruct (event_time_room self agent_id parent_time action_hint Hroom)
      as (r0 & E0 & Hr & _).
    rewrite E in E0. injection E0 as -> _. rewrite Ho.
    split; [discriminate | lia].
Qed.

End EventTimeEffect.

Lemma event_time_returns_draw_witness :
  fst <$> @event_time toy_runtime default_clock 1 None "create_post" =
    Returns (@drawn toy_runtime default_clock 1 None "create_post") /\
  exists self',
    @event_time toy_runtime two_second_clock_after_agent2 1 (Some 0) "" =
      Returns (@drawn toy_runtime two_second_clock_after_agent2 1 (Some 0) "",
               self') /\
    @drawn toy_runtime two_second_clock_after_agent2 1 (Some 0) ""
      ∈ used_of two_second_clock_after_agent2 /\
    used_at self' (tick two_second_clock_after_agent2)
      = used_of two_second_clock_after_agent2 /\
    event_index_of self' 1 = event_index_of two_second_clock_after_agent2 1 + 1.
Proof.
  split.
  - apply (@event_time_returns_draw toy_runtime default_clock 1 None
             "create_post").
    + vm_compute. discriminate.
    + change (used_of default_clock) with (∅ : gset Z). apply not_elem_of_empty.
  - apply (@event_time_returns_draw toy_runtime two_second_clock_after_agent2 1
             (Some 0) "").
    + vm_compute. discriminate.
    + change (range_full {[ 1 ]} 1 1). intros x Hx.
      apply elem_of_singleton. lia.
Defined.

Lemma event_time_effect_and_frame_witness :
  let self' :=
    (@step toy_runtime default_clock (EventTime 1 None "create_post")).2 in
  (tick self' = tick default_clock /\
   tick_duration_s self' = tick_duration_s default_clock /\
   epoch self' = epoch default_clock /\
   seed self' = seed default_clock /\
   _rng self' = _rng default_clock) /\
  event_index_of self' 1 = event_index_of default_clock 1 + 1 /\
  (forall key, key <> (tick default_clock, 1) ->
     _event_counter self' !! key = _event_counter default_clock !! key) /\
  used_at self' (tick default_clock)
    = {[ 27444 ]} ∪ used_at default_clock (tick default_clock) /\
  (forall t, t <> tick default_clock ->
     used_at self' t = used_at default_clock t).
Proof.
  destruct (@event_time_effect_and_frame toy_runtime default_clock
              (@step toy_runtime default_clock
                 (EventTime 1 None "create_post")).2
              1 27444 None "create_post") as [H1 H2].
  - vm_compute. reflexivity.
  - split; [exact H1|]. apply H2. reflexivity.
Defined.

Lemma overflow_iff_beyond_tick_end_witness :
  overflows default_clock (Some 86399) = true <->
  tick_end_s default_clock < 86400.
Proof.
  apply (@overflow_iff_beyond_tick_end toy_runtime default_clock default_clock
           2 86400 (Some 86399) "comment").
  vm_compute. reflexivity.
Defined.

(** ** The counter and the used sets as records of the calls made *)

Section History.
Context {rt : PyRuntime}.

Lemma run_cons_snd self c calls :
  (run self (c :: calls)).2 = (run (step self c).2 calls).2.
Proof.
  simpl. destruct (step self c) as [o self']. simpl.
  now destruct (run self' calls).
Qed.

(** One [event_time] call, seen from the counter of an agent and from the
    used set of a tick. *)
Lemma step_event_time_effect self agent_id parent_time action_hint :
  let self' := (step self (EventTime agent_id parent_time action_hint)).2 in
  tick self' = tick self /\
  tick_duration_s self' = tick_duration_s self /\
  (forall a, event_index_of self' a =
             event_index_of self a +
             if bool_decide (agent_id = a) && negb (overflows self parent_time)
             then 1 else 0) /\
  (overflows self parent_time = true -> self' = self) /\
  (overflows self parent_time = false ->
   exists r,
     event_time self agent_id parent_time action_hint = Returns (r, self') /\
     min_time_of self parent_time <= r <= tick_end_s self /\
     (r ∈ used_of self ->
      range_full (used_of self) (min_time_of self parent_time)
                 (tick_end_s self)) /\
     forall t, used_at self' t =
               if decide (t = tick self) then {[ r ]} ∪ used_at self t
               else used_at self t).
Proof.
  cbv zeta. cbn [step].
  destruct (event_time_cases self agent_id parent_time action_hint)
    as [[Ho E] | [Ho Hroom]].
  - rewrite E, Ho.
    destruct parent_time as [p|]; cbn [snd];
      (repeat split; try discriminate);
      intros a; rewrite andb_false_r; lia.
  - destruct (event_time_room self agent_id parent_time action_hint Hroom)
      as (r & E & Hr & Hfull).
    rewrite E, Ho. cbn [snd]. split; [reflexivity|]. split; [reflexivity|].
    split; [|split; [discriminate|]].
    + intros a. rewrite andb_true_r. unfold event_index_of at 1. simpl.
      destruct (bool_decide (agent_id = a)) eqn:B.
      * apply bool_decide_eq_true in B. subst a. now rewrite lookup_insert_eq.
      * apply bool_decide_eq_false in B.
        rewrite lookup_insert_ne by congruence. unfold event_index_of. lia.
    + intros _. exists r. split; [reflexivity|]. split; [exact Hr|].
      split; [exact Hfull|]. intros t. unfold used_at. simpl.
      destruct (decide (t = tick self)) as [-> | Hne].
      * now rewrite lookup_insert_eq.
      * now rewrite lookup_insert_ne.
Qed.

Lemma issued_cons self c calls agent_id :
  issued self (c :: calls) agent_id =
  (match c with
   | EventTime a parent_time _ =>
       if bool_decide (a = agent_id) && negb (overflows self parent_time)
       then 1 else 0
   | AdvanceTick _ => 0
   end) + issued (step self c).2 calls agent_id.
Proof. reflexivity. Qed.

Lemma event_index_counts calls : forall self agent_id,
  only_event_time calls ->
  event_index_of (run self calls).2 agent_id =
  event_index_of self agent_id + issued self calls agent_id.
Proof.
  induction calls as [|c calls IH]; intros self agent_id Hev.
  - simpl. lia.
  - apply Forall_cons in Hev as [Hc Hev]. rewrite run_cons_snd, issued_cons.
    rewrite (IH _ _ Hev). destruct c as [n | a p h]; [contradiction|].
    destruct (step_event_time_effect self a p h) as (_ & _ & Hidx & _).
    rewrite Hidx. lia.
Qed.

(** The event counter counts calls: after a sequence of [event_time] calls
    the index the clock holds for an agent in the current tick is what it
    held before plus the number of that agent's calls that drew a timestamp
    (calls through the overflow branch are not counted); and after an
    [advance_tick], whatever its argument, counting starts again at zero. *)
Theorem event_counter_counts_calls (self : VirtualClock) (calls : list call)
    (agent_id : Z) :
  only_event_time calls ->
  event_index_of (run self calls).2 agent_id =
    event_index_of self agent_id + issued self calls agent_id /\
  forall n,
    event_index_of (run self (AdvanceTick n :: calls)).2 agent_id =
      issued (step self (AdvanceTick n)).2 calls agent_id.
Proof.
  intros Hev. split; [now apply event_index_counts|].
  intros n. rewrite run_cons_snd, (event_index_counts _ _ _ Hev).
  unfold event_index_of at 1. simpl. rewrite lookup_empty. simpl. lia.
Qed.

Lemma step_used_at self c t x :
  x ∈ used_at (step self c).2 t <->
  x ∈ used_at self t \/
  exists e, e ∈ head_events self c /\ ev_tick e = t /\
            ev_overflow e = false /\ ev_result e = x.
Proof.
  destruct c as [n | a p h].
  - simpl. split; [now left|]. intros [H | (e & He & _)]; [exact H|].
    inversion He.
  - destruct (step_event_time_effect self a p h) as (_ & _ & _ & Hsame & Hroom).
    cbv zeta in Hsame, Hroom. unfold head_events.
    destruct (overflows self p) eqn:Ho.
    + rewrite (Hsame eq_refl). split; [now left|].
      intros [H | (e & He & _ & Hov & _)]; [exact H|]. exfalso.
      destruct (event_time self a p h) as [[r self'] | ?]; [|inversion He].
      apply list_elem_of_singleton in He. subst e. simpl in Hov. congruence.
    + destruct (Hroom eq_refl) as (r & E & _ & _ & Hused).
      rewrite E, Hused.
      destruct (decide (t = tick self)) as [-> | Hne].
      * rewrite elem_of_union, elem_of_singleton. split.
        -- intros [-> | H]; [|now left]. right.
           exists (event_of self p r). split; [now apply list_elem_of_singleton|].
           simpl. now rewrite Ho.
        -- intros [H | (e & ->%list_elem_of_singleton & _ & _ & <-)];
             [now right | now left].
      * split; [now left|].
        intros [H | (e & ->%list_elem_of_singleton & Ht & _)]; [exact H|].
        simpl in Ht. congruence.
Qed.

(** The used sets record the history: after a sequence of calls, the set
    the clock holds for a tick consists of what it held before and of the
    timestamps returned in that tick by the calls that drew one; nothing
    else is added and nothing is removed. *)
Theorem used_sets_record_trace (calls : list call) :
  forall (self : VirtualClock) (t x : Z),
    x ∈ used_at (run self calls).2 t <->
    x ∈ used_at self t \/
    exists e, e ∈ trace self calls /\ ev_tick e = t /\
              ev_overflow e = false /\ ev_result e = x.
Proof.
  induction calls as [|c calls IH]; intros self t x.
  - simpl. split; [now left|]. intros [H | (e & He & _)]; [exact H|].
    inversion He.
  - rewrite run_cons_snd, IH, step_used_at, trace_cons. split.
    + intros [[H | (e & He & Hrest)] | (e & He & Hrest)].
      * now left.
      * right. exists e. split; [apply elem_of_app; now left | exact Hrest].
      * right. exists e. split; [apply elem_of_app; now right | exact Hrest].
    + intros [H | (e & He & Hrest)]; [now left; left|].
      apply elem_of_app in He as [He | He].
      * left. right. now exists e.
      * right. now exists e.
Qed.

End History.

Lemma event_counter_counts_calls_witness :
  let calls := [EventTime 1 None "create_post"; EventTime 2 (Some 86399) "like";
                EventTime 1 (Some 27444) "comment"] in
  event_index_of (@run toy_runtime default_clock calls).2 1 =
    event_index_of default_clock 1 + @issued toy_runtime default_clock calls 1 /\
  forall n,
    event_index_of (@run toy_runtime default_clock (AdvanceTick n :: calls)).2 1 =
      @issued toy_runtime (@step toy_runtime default_clock (AdvanceTick n)).2
              calls 1.
Proof.
  apply (@event_counter_counts_calls toy_runtime default_clock).
  repeat constructor.
Defined.

(** ** Ticks and timestamps *)

Section Ticks.
Context {rt : PyRuntime}.

Lemma head_events_parentless self c e :
  e ∈ head_events self c -> ev_parent e = None ->
  ev_overflow e = false /\
  ev_tick e * tick_duration_s self <= ev_result e
    <= (ev_tick e + 1) * tick_duration_s self - 1.
Proof.
  destruct c as [n | a p h]; simpl; [intros H; inversion H|].
  destruct (event_time_cases self a p h) as [[Ho E] | [Ho Hroom]].
  - rewrite E. destruct p as [p|]; [|intros H; inversion H].
    intros ->%list_elem_of_singleton. discriminate.
  - destruct (event_time_room self a p h Hroom) as (r & E & Hr & _).
    rewrite E. intros ->%list_elem_of_singleton. simpl. intros ->.
    split; [exact Ho|]. exact Hr.
Qed.

Lemma trace_parentless_bounds calls : forall self e,
  e ∈ trace self calls -> ev_parent e = None ->
  ev_overflow e = false /\
  ev_tick e * tick_duration_s self <= ev_result e
    <= (ev_tick e + 1) * tick_duration_s self - 1.
Proof.
  induction calls as [|c calls IH]; intros self e He Hp; [inversion He|].
  rewrite trace_cons in He. apply elem_of_app in He as [He | He].
  - now apply (head_events_parentless self c).
  - specialize (IH _ _ He Hp). now rewrite step_tick_duration in IH.
Qed.

(** On a clock with a positive tick duration, the timestamp of a call
    without parent gives its tick back by integer division, and it is
    greater than every timestamp that a call of an earlier tick drew
    (with or without parent). *)
Theorem timestamps_follow_ticks (self : VirtualClock) (calls : list call)
    (ei ej : event) :
  0 < tick_duration_s self ->
  ei ∈ trace self calls -> ej ∈ trace self calls ->
  ev_parent ej = None ->
  ev_result ej / tick_duration_s self = ev_tick ej /\
  (ev_overflow ei = false -> ev_tick ei < ev_tick ej ->
   ev_result ei < ev_result ej).
Proof.
  intros Hd Hi Hj Hp.
  destruct (trace_parentless_bounds calls self ej Hj Hp) as [_ Bj].
  pose proof (trace_event_bounds calls self ei Hi) as [_ Bi].
  set (d := tick_duration_s self) in *. split.
  - symmetry. apply (Z.div_unique_pos _ _ _ (ev_result ej - ev_tick ej * d)); lia.
  - intros Ho Hlt. specialize (Bi Ho). nia.
Qed.

End Ticks.

Lemma timestamps_follow_ticks_witness :
  107438 / tick_duration_s default_clock = 1 /\ 27444 < 107438.
Proof.
  destruct (@timestamps_follow_ticks toy_runtime default_clock
              [EventTime 1 None "create_post"; AdvanceTick 1;
               EventTime 1 None ""]
              (mkEvent 0 None false false 27444)
              (mkEvent 1 None false false 107438)) as [H1 H2].
  - vm_compute. reflexivity.
  - vm_compute. apply list_elem_of_here.
  - vm_compute. apply list_elem_of_further, list_elem_of_here.
  - reflexivity.
  - split; [exact H1|]. apply H2; [reflexivity|]. simpl. lia.
Defined.

(** ** How many timestamps a tick can serve *)

Lemma range_full_size used min_time max_time :
  range_full used min_time max_time ->
  max_time - min_time + 1 <= Z.of_nat (size used).
Proof.
  intros Hfull.
  assert (range_set min_time max_time ⊆ used) as Hsub.
  { intros x Hx. apply Hfull. unfold range_set in Hx.
    apply elem_of_list_to_set, elem_of_seqZ in Hx. lia. }
  apply subseteq_size in Hsub. unfold range_set in Hsub.
  rewrite size_list_to_set, length_seqZ in Hsub by apply NoDup_seqZ. lia.
Qed.

Lemma size_used_insert (r : Z) (used : gset Z) :
  (size ({[ r ]} ∪ used) <= S (size used))%nat.
Proof.
  destruct (decide (r ∈ used)) as [Hin | Hout].
  - rewrite subseteq_union_1_L by now apply singleton_subseteq_l. lia.
  - rewrite size_union by now apply disjoint_singleton_l.
    rewrite size_singleton. lia.
Qed.

Section Capacity.
Context {rt : PyRuntime}.

Lemma event_time_fresh self agent_id parent_time action_hint :
  Z.of_nat (size (used_of self))
    < tick_end_s self - min_time_of self parent_time + 1 ->
  exists r self',
    event_time self agent_id parent_time action_hint = Returns (r, self') /\
    min_time_of self parent_time <= r <= tick_end_s self /\
    r ∉ used_of self.
Proof.
  intros Hsize.
  destruct (event_time_room self agent_id parent_time action_hint ltac:(lia))
    as (r & E & Hr & Hfull).
  eexists r, _. split; [exact E|]. split; [exact Hr|].
  intros Hin. apply Hfull, range_full_size in Hin. lia.
Qed.

(** While fewer timestamps are used in the tick than the range of a call
    has values, the call returns a timestamp of its range that was not used
    before: the probe cannot give up. *)
Theorem event_time_fresh_below_capacity (self : VirtualClock) (agent_id : Z)
    (parent_time : option Z) (action_hint : string) :
  Z.of_nat (size (used_of self))
    < tick_end_s self - min_time_of self parent_time + 1 ->
  exists r self',
    event_time self agent_id parent_time action_hint = Returns (r, self') /\
    min_time_of self parent_time <= r <= tick_end_s self /\
    r ∉ used_of self.
Proof. apply event_time_fresh. Qed.

Lemma tick_capacity calls : forall self e,
  only_event_time calls ->
  Z.of_nat (size (used_of self)) + Z.of_nat (length calls)
    <= tick_duration_s self ->
  e ∈ trace self calls -> ev_parent e = None ->
  ev_collides e = false.
Proof.
  induction calls as [|c calls IH]; intros self e Hev Hsize He Hp;
    [inversion He|].
  apply Forall_cons in Hev as [Hc Hev]. destruct c as [n | a p h]; [contradiction|].
  rewrite trace_cons in He. simpl length in Hsize.
  destruct (step_event_time_effect self a p h)
    as (Ht & Hd & _ & Hsame & Hroom). cbv zeta in Ht, Hd, Hsame, Hroom.
  apply elem_of_app in He as [He | He].
  - unfold head_events in He.
    destruct (event_time self a p h) as [[r self'] | ?] eqn:E; [|inversion He].
    apply list_elem_of_singleton in He. subst e. simpl in Hp. subst p.
    simpl. destruct (overflows self None) eqn:Ho; [reflexivity|]. simpl.
    apply bool_decide_eq_false.
    destruct (event_time_fresh self a None h) as (r0 & s0 & E0 & _ & Hfree).
    + simpl. unfold tick_start_s, tick_end_s. lia.
    + rewrite E in E0. injection E0 as -> _. exact Hfree.
  - apply (IH (step self (EventTime a p h)).2); try assumption.
    rewrite Hd. unfold used_of. rewrite Ht.
    fold (used_at (step self (EventTime a p h)).2 (tick self)).
    destruct (overflows self p) eqn:Ho.
    + rewrite (Hsame eq_refl).
      change (used_at self (tick self)) with (used_of self). lia.
    + destruct (Hroom eq_refl) as (r & _ & _ & _ & Hused).
      rewrite Hused, decide_True by reflexivity.
      change (used_at self (tick self)) with (used_of self).
      pose proof (size_used_insert r (used_of self)) as Hs. lia.
Qed.

End Capacity.

Section CapacityDistinct.
Context {rt : PyRuntime}.

Lemma trace_same_tick calls : forall self e,
  only_event_time calls -> e ∈ trace self calls -> ev_tick e = tick self.
Proof.
  induction calls as [|c calls IH]; intros self e Hev He; [inversion He|].
  apply Forall_cons in Hev as [Hc Hev]. destruct c as [n | a p h]; [contradiction|].
  rewrite trace_cons in He. apply elem_of_app in He as [He | He].
  - now destruct (head_events_spec self _ e He) as [Ht _].
  - rewrite (IH _ _ Hev He).
    now destruct (step_event_time_effect self a p h) as [Ht _].
Qed.

(** A tick has room for as many timestamps as it has seconds: in a sequence
    of [event_time] calls such that the timestamps already used in the tick
    plus the calls of the sequence do not exceed [tick_duration_s], no call
    without parent returns a duplicate, and any two calls without parent
    return different timestamps. *)
Theorem tick_serves_distinct_timestamps (self : VirtualClock)
    (calls : list call) (i j : nat) (ei ej : event) :
  only_event_time calls ->
  Z.of_nat (size (used_of self)) + Z.of_nat (length calls)
    <= tick_duration_s self ->
  (i < j)%nat ->
  trace self calls !! i = Some ei ->
  trace self calls !! j = Some ej ->
  ev_parent ei = None -> ev_parent ej = None ->
  ev_collides ei = false /\ ev_collides ej = false /\
  ev_result ei <> ev_result ej.
Proof.
  intros Hev Hsize Hij Hi Hj Hpi Hpj.
  pose proof (list_elem_of_lookup_2 _ _ _ Hi) as Ini.
  pose proof (list_elem_of_lookup_2 _ _ _ Hj) as Inj.
  pose proof (tick_capacity calls self ei Hev Hsize Ini Hpi) as Ci.
  pose proof (tick_capacity calls self ej Hev Hsize Inj Hpj) as Cj.
  split; [exact Ci|]. split; [exact Cj|].
  apply (unique_in_tick calls self i j); try assumption.
  - rewrite (trace_same_tick calls self ei Hev Ini).
    now rewrite (trace_same_tick calls self ej Hev Inj).
  - intros (Ho & _).
    destruct (trace_parentless_bounds calls self ei Ini Hpi) as [Hno _].
    congruence.
Qed.

End CapacityDistinct.

Lemma event_time_fresh_below_capacity_witness :
  exists r self',
    @event_time toy_runtime two_second_clock_after_agent2 1 None "" =
      Returns (r, self') /\
    min_time_of two_second_clock_after_agent2 None <= r
      <= tick_end_s two_second_clock_after_agent2 /\
    r ∉ used_of two_second_clock_after_agent2.
Proof.
  apply (@event_time_fresh_below_capacity toy_runtime
           two_second_clock_after_agent2 1 None "").
  vm_compute. reflexivity.
Defined.

Lemma tick_serves_distinct_timestamps_witness :
  ev_collides (mkEvent 0 None false false 0) = false /\
  ev_collides (mkEvent 0 None false false 1) = false /\
  ev_result (mkEvent 0 None false false 0)
    <> ev_result (mkEvent 0 None false false 1).
Proof.
  apply (@tick_serves_distinct_timestamps toy_runtime two_second_clock
           [EventTime 1 None "create_post"; EventTime 2 None "c"]
           0%nat 1%nat).
  - repeat constructor.
  - vm_compute. discriminate.
  - lia.
  - vm_compute. reflexivity.
  - vm_compute. reflexivity.
  - reflexivity.
  - reflexivity.
Defined.

(** ** Reset, the [time_step] setter and the configuration *)

Section Operations.
Context {rt : PyRuntime}.

Lemma step_config self c :
  tick_duration_s (step self c).2 = tick_duration_s self /\
  epoch (step self c).2 = epoch self /\
  seed (step self c).2 = seed self /\
  _rng (step self c).2 = _rng self.
Proof.
  destruct c as [n | a p h]; simpl; [repeat split|].
  destruct (event_time_cases self a p h) as [[_ E] | [_ Hroom]].
  - rewrite E. destruct p; repeat split.
  - destruct (event_time_room self a p h Hroom) as (r & E & _). rewrite E.
    repeat split.
Qed.

Lemma step_op_config self o :
  tick_duration_s (step_op self o) = tick_duration_s self /\
  epoch (step_op self o) = epoch self /\
  seed (step_op self o) = seed self /\
  (_rng self = Some (mkRandom (seed self)) ->
   _rng (step_op self o) = Some (mkRandom (seed self))).
Proof.
  destruct o as [c | | value]; simpl.
  - destruct (step_config self c) as (-> & -> & -> & ->). repeat split.
    now intros.
  - repeat split.
  - repeat split. now intros.
Qed.

Lemma run_ops_config ops : forall self,
  tick_duration_s (run_ops self ops) = tick_duration_s self /\
  epoch (run_ops self ops) = epoch self /\
  seed (run_ops self ops) = seed self /\
  (_rng self = Some (mkRandom (seed self)) ->
   _rng (run_ops self ops) = Some (mkRandom (seed self))).
Proof.
  induction ops as [|o ops IH]; intros self; [repeat split; now intros|].
  change (run_ops self (o :: ops)) with (run_ops (step_op self o) ops).
  destruct (IH (step_op self o)) as (-> & -> & Hs & Hr).
  destruct (step_op_config self o) as (-> & -> & Hs' & Hr').
  rewrite Hs, Hs' in *. repeat split. intros H. apply Hr, Hr', H.
Qed.

(** No operation of the clock changes its configuration: after any sequence
    of [event_time], [advance_tick], [reset] and [time_step] assignments the
    tick duration, the epoch and the seed are those the clock was built
    with, and the stored random source is still the one seeded with that
    seed. *)
Theorem configuration_is_never_changed (tick_duration seed0 tick0 : Z)
    (epoch0 : datetime) (ops : list op) :
  let self := run_ops (new tick_duration epoch0 seed0 tick0) ops in
  tick_duration_s self = tick_duration /\
  epoch self = epoch0 /\
  seed self = seed0 /\
  _rng self = Some (mkRandom seed0).
Proof.
  cbv zeta.
  destruct (run_ops_config ops (new tick_duration epoch0 seed0 tick0))
    as (-> & -> & -> & Hr).
  repeat split. now apply Hr.
Qed.

(** [reset] after any sequence of operations gives exactly the clock the
    constructor builds from the same configuration at tick 0; the calls made
    after it return what they return on a fresh clock. *)
Theorem reset_restores_fresh_clock (tick_duration seed0 tick0 : Z)
    (epoch0 : datetime) (ops : list op) (calls : list call) :
  reset (run_ops (new tick_duration epoch0 seed0 tick0) ops) =
    new tick_duration epoch0 seed0 0 /\
  run (reset (run_ops (new tick_duration epoch0 seed0 tick0) ops)) calls =
    run (new tick_duration epoch0 seed0 0) calls.
Proof.
  assert (reset (run_ops (new tick_duration epoch0 seed0 tick0) ops) =
          new tick_duration epoch0 seed0 0) as E.
  { destruct (run_ops_config ops (new tick_duration epoch0 seed0 tick0))
      as (Hd & He & Hs & _).
    unfold reset. rewrite Hd, He, Hs. reflexivity. }
  split; [exact E | now rewrite E].
Qed.

End Operations.

(** [advance_tick] is additive: advancing by [n] and then by [m] is advancing
    by [n + m], for integers of either sign. *)
Theorem advance_tick_additive (self : VirtualClock) (n m : Z) :
  (advance_tick self n ≫= fun self' => advance_tick self' m) =
  advance_tick self (n + m).
Proof.
  unfold advance_tick, mbind, outcome_bind. simpl. do 2 f_equal. lia.
Qed.

(** Leaving a tick and coming back.  Through the [time_step] setter the
    clock comes back as it was, event counters included; through
    [advance_tick n] and [advance_tick (- n)] the tick, the configuration
    and the used sets come back but the event counter is empty, so the
    call indices of the tick start again at zero. *)
Theorem leaving_and_returning_to_a_tick (self : VirtualClock) (n : Z) :
  time_step (set_time_step self n) = n /\
  set_time_step (set_time_step self n) (time_step self) = self /\
  (advance_tick self n ≫= fun self' => advance_tick self' (- n)) =
    Returns {| tick_duration_s := tick_duration_s self;
               epoch := epoch self;
               seed := seed self;
               tick := tick self;
               _rng := _rng self;
               _event_counter := ∅;
               _used_times := _used_times self |}.
Proof.
  split; [reflexivity|]. split; [now destruct self|].
  unfold advance_tick, mbind, outcome_bind. simpl. do 2 f_equal. lia.
Qed.

(** ** More on the conversion to datetimes *)

(** [to_datetime] returns exactly when the epoch plus [virtual_time_s]
    seconds is a datetime (between [datetime.min] and [datetime.max]); it
    raises [OverflowError] otherwise, for timestamps too large as for
    timestamps before year 1. *)
Theorem to_datetime_returns_iff_in_range (self : VirtualClock)
    (virtual_time_s : Z) :
  valid_datetime (epoch self) ->
  (0 <= dt_us (epoch self) + virtual_time_s * 1000000 < datetime_limit ->
   to_datetime self virtual_time_s =
     Returns (mkDatetime (dt_us (epoch self) + virtual_time_s * 1000000))) /\
  (~ 0 <= dt_us (epoch self) + virtual_time_s * 1000000 < datetime_limit ->
   to_datetime self virtual_time_s = Raises OverflowError).
Proof.
  intros He. split.
  - intros Hv. now apply to_datetime_in_range.
  - intros Hout. unfold to_datetime, timedelta_seconds, mbind, outcome_bind.
    destruct (_ || _); [reflexivity|].
    unfold datetime_add. rewrite td_us_timedelta_of_us.
    destruct ((dt_us (epoch self) + virtual_time_s * 1000000 <? 0)
              || (datetime_limit <=? dt_us (epoch self) + virtual_time_s * 1000000))
      eqn:B; [reflexivity|].
    apply orb_false_elim in B as [B1 B2].
    apply Z.ltb_ge in B1. apply Z.leb_gt in B2. lia.
Qed.

Lemma to_datetime_returns_iff_in_range_witness :
  to_datetime default_clock 86400 =
    Returns (mkDatetime (dt_us (epoch default_clock) + 86400 * 1000000)) /\
  to_datetime default_clock 1000000000000 = Raises OverflowError /\
  to_datetime default_clock (-63839664001) = Raises OverflowError.
Proof.
  assert (valid_datetime (epoch default_clock)) as He
    by (vm_compute; split; [discriminate | reflexivity]).
  split; [|split].
  - apply (proj1 (to_datetime_returns_iff_in_range default_clock 86400 He)).
    vm_compute. split; [discriminate | reflexivity].
  - apply (proj2 (to_datetime_returns_iff_in_range default_clock
                    1000000000000 He)).
    vm_compute. intros [_ H]. discriminate H.
  - apply (proj2 (to_datetime_returns_iff_in_range default_clock
                    (-63839664001) He)).
    vm_compute. intros [H _]. now apply H.
Defined.

(** [to_datetime] keeps order and distance: two timestamps it converts are
    in the same order as their datetimes, which lie as many seconds apart
    as the timestamps. *)
Theorem to_datetime_keeps_order_and_distance (self : VirtualClock)
    (v1 v2 : Z) (d1 d2 : datetime) :
  to_datetime self v1 = Returns d1 ->
  to_datetime self v2 = Returns d2 ->
  dt_us d2 - dt_us d1 = (v2 - v1) * 1000000 /\
  (v1 < v2 <-> dt_us d1 < dt_us d2) /\
  (v1 = v2 <-> d1 = d2).
Proof.
  intros E1 E2.
  destruct (to_datetime_returns self v1 d1 E1) as [U1 _].
  destruct (to_datetime_returns self v2 d2 E2) as [U2 _].
  split; [lia|]. split; [lia|]. split.
  - intros ->. rewrite E1 in E2. now injection E2.
  - intros ->. lia.
Qed.

Lemma to_datetime_keeps_order_and_distance_witness :
  dt_us (mkDatetime (dt_us default_epoch + 86400 * 1000000))
    - dt_us (mkDatetime (dt_us default_epoch + 27444 * 1000000))
    = (86400 - 27444) * 1000000 /\
  (27444 < 86400 <->
   dt_us (mkDatetime (dt_us default_epoch + 27444 * 1000000))
     < dt_us (mkDatetime (dt_us default_epoch + 86400 * 1000000))) /\
  (27444 = 86400 <->
   mkDatetime (dt_us default_epoch + 27444 * 1000000)
     = mkDatetime (dt_us default_epoch + 86400 * 1000000)).
Proof.
  apply (to_datetime_keeps_order_and_distance default_clock 27444 86400);
    vm_compute; reflexivity.
Defined.

(** [time_transfer] does not look at its arguments, and the datetime it
    returns converts back to the first second of the current tick. *)
Theorem time_transfer_is_tick_start (self : VirtualClock)
    (now_time start_time : datetime) (dt : datetime) :
  time_transfer self now_time start_time = Returns dt ->
  from_datetime self dt = tick self * tick_duration_s self /\
  forall now_time' start_time',
    time_transfer self now_time' start_time' = Returns dt.
Proof.
  unfold time_transfer. intros E. split; [|now intros].
  destruct (to_datetime_returns self _ dt E) as [U Hv].
  rewrite from_datetime_unfold.
  replace (dt_us dt - dt_us (epoch self))
    with (tick_start_s self * 1000000) by lia.
  unfold tick_start_s in *.
  apply int_truediv_exact; [lia|].
  change (2 ^ 53) with 9007199254740992. lia.
Qed.

Lemma time_transfer_is_tick_start_witness :
  let self := set_time_step default_clock 3 in
  let dt := mkDatetime (dt_us default_epoch + 3 * 86400 * 1000000) in
  from_datetime self dt = tick self * tick_duration_s self /\
  forall now_time' start_time',
    time_transfer self now_time' start_time' = Returns dt.
Proof.
  apply (time_transfer_is_tick_start (set_time_step default_clock 3)
           (mkDatetime 0) (mkDatetime 1)).
  vm_compute. reflexivity.
Defined.

(** ** Enumerations and the image prompt *)

(** No two action types share a value: looking a member up by its value
    gives that member back, a lookup that succeeds returns a member with the
    value asked for, and members with equal values are equal. *)
Theorem action_type_value_round_trip (m : ActionType.t) :
  ActionType.of_value (ActionType.value m) = Some m /\
  (forall s m', ActionType.of_value s = Some m' -> ActionType.value m' = s) /\
  (forall m', ActionType.value m = ActionType.value m' -> m = m').
Proof.
  assert (forall m0, ActionType.of_value (ActionType.value m0) = Some m0) as RT
    by (intros m0; destruct m0; vm_compute; reflexivity).
  split; [apply RT|]. split.
  - intros s m' H. unfold ActionType.of_value in H.
    apply List.find_some in H as [_ H]. now apply bool_decide_eq_true in H.
  - intros m' E. pose proof (RT m) as H. rewrite E, RT in H. now injection H.
Qed.

(** Every default platform has a recommender type of the same value, and
    the values within each of the two enumerations are pairwise distinct. *)
Theorem platform_has_recsys (p : DefaultPlatformType.t) :
  (exists r, RecsysType.of_value (DefaultPlatformType.value p) = Some r /\
             RecsysType.value r = DefaultPlatformType.value p) /\
  DefaultPlatformType.of_value (DefaultPlatformType.value p) = Some p /\
  (forall r, RecsysType.of_value (RecsysType.value r) = Some r).
Proof.
  split; [|split].
  - destruct p; eexists; split; vm_compute; reflexivity.
  - destruct p; vm_compute; reflexivity.
  - intros r. destruct r; vm_compute; reflexivity.
Qed.

Lemma string_append_cons (x : Ascii.ascii) (a b : string) :
  String x a +:+ b = String x (a +:+ b).
Proof. reflexivity. Qed.

Lemma string_append_assoc (a b c : string) :
  (a +:+ b) +:+ c = a +:+ (b +:+ c).
Proof.
  induction a as [|x a IH]; [reflexivity|].
  rewrite !string_append_cons. now rewrite IH.
Qed.

Lemma string_length_append (a b : string) :
  String.length (a +:+ b) = (String.length a + String.length b)%nat.
Proof.
  induction a as [|x a IH]; [reflexivity|].
  rewrite string_append_cons. simpl. now rewrite IH.
Qed.

Lemma substring_whole (u : string) :
  String.substring 0 (String.length u) u = u.
Proof. induction u as [|c u IH]; [reflexivity|]. simpl. now rewrite IH. Qed.

(** Dropping a prefix, and keeping it. *)
Lemma substring_after_prefix (pre u : string) :
  String.substring (String.length pre) (String.length u) (pre +:+ u) = u.
Proof.
  induction pre as [|c pre IH]; [apply substring_whole|].
  rewrite string_append_cons. exact IH.
Qed.

Lemma substring_of_prefix (pre u : string) :
  String.substring 0 (String.length pre) (pre +:+ u) = pre.
Proof.
  induction pre as [|c pre IH]; [now destruct u|].
  rewrite string_append_cons. simpl. now rewrite IH.
Qed.

(** [build_image_prompt] keeps the subject intact after a fixed preamble of
    796 characters: different subjects give different prompts, and the
    subject is what follows the preamble. *)
Theorem build_image_prompt_keeps_subject (user_prompt : string) :
  (forall other, build_image_prompt user_prompt = build_image_prompt other ->
                 user_prompt = other) /\
  String.length (build_image_prompt user_prompt)
    = (796 + String.length user_prompt)%nat /\
  String.substring 0 785 (build_image_prompt user_prompt) = IMAGE_SYSTEM_PROMPT /\
  String.substring 796 (String.length user_prompt)
                   (build_image_prompt user_prompt) = user_prompt.
Proof.
  unfold build_image_prompt. split; [|split; [|split]].
  - intros other E. apply String.app_inj in E. now apply String.app_inj in E.
  - rewrite !string_length_append. reflexivity.
  - change 785%nat with (String.length IMAGE_SYSTEM_PROMPT).
    apply substring_of_prefix.
  - rewrite <- string_append_assoc.
    change 796%nat with (String.length (IMAGE_SYSTEM_PROMPT +:+ "

Subject: ")).
    apply substring_after_prefix.
Qed.

Lemma action_type_value_round_trip_witness :
  ActionType.of_value (ActionType.value ActionType.CREATE_POST)
    = Some ActionType.CREATE_POST /\
  ActionType.value ActionType.LIKE_POST = "like_post" /\
  ActionType.CREATE_POST = ActionType.CREATE_POST.
Proof.
  destruct (action_type_value_round_trip ActionType.CREATE_POST)
    as (H1 & H2 & H3).
  split; [exact H1|]. split.
  - apply H2. vm_compute. reflexivity.
  - apply H3. reflexivity.
Defined.

Lemma build_image_prompt_keeps_subject_witness :
  "Sunset over the ocean with waves" = "Sunset over the ocean with waves" /\
  String.length (build_image_prompt "Sunset over the ocean with waves")
    = (796 + String.length "Sunset over the ocean with waves")%nat /\
  String.substring 0 785 (build_image_prompt "Sunset over the ocean with waves")
    = IMAGE_SYSTEM_PROMPT /\
  String.substring 796 (String.length "Sunset over the ocean with waves")
                   (build_image_prompt "Sunset over the ocean with waves")
    = "Sunset over the ocean with waves".
Proof.
  destruct (build_image_prompt_keeps_subject "Sunset over the ocean with waves")
    as (H1 & H2).
  split; [|exact H2]. apply H1. reflexivity.
Defined.

Ltac not_a_member :=
  let H := fresh in
  intros H;
  repeat (apply elem_of_cons in H as [H | H]; [discriminate H|]);
  inversion H.

Ltac distinct_members :=
  repeat (apply NoDup_cons; split; [not_a_member|]); apply NoDup_nil_2.

(** The default action lists of the three platforms name no action twice,
    and the Twitter and Reddit defaults contain none of the Facebook-style
    actions. *)
Theorem default_actions_are_distinct :
  NoDup ActionType.get_default_twitter_actions /\
  NoDup ActionType.get_default_reddit_actions /\
  NoDup ActionType.get_default_facebook_actions /\
  (forall m, m ∈ ActionType.get_default_twitter_actions
             \/ m ∈ ActionType.get_default_reddit_actions ->
             facebook_style m = false).
Proof.
  assert (forall l : list ActionType.t,
            (forall m, m ∈ l -> facebook_style m = false) <->
            forallb (fun m => negb (facebook_style m)) l = true) as Hall.
  { intros l. rewrite forallb_forall. split.
    - intros H m Hm. apply list_elem_of_In in Hm. now rewrite (H m Hm).
    - intros H m Hm. apply list_elem_of_In, H in Hm.
      now destruct (facebook_style m). }
  split; [|split; [|split]].
  - distinct_members.
  - distinct_members.
  - distinct_members.
  - intros m [Hm | Hm]; revert m Hm; apply Hall; reflexivity.
Qed.

Lemma default_actions_are_distinct_witness :
  NoDup ActionType.get_default_twitter_actions /\
  NoDup ActionType.get_default_reddit_actions /\
  NoDup ActionType.get_default_facebook_actions /\
  facebook_style ActionType.REPOST = false.
Proof.
  destruct default_actions_are_distinct as (H1 & H2 & H3 & H4).
  split; [exact H1|]. split; [exact H2|]. split; [exact H3|].
  apply H4. left. unfold ActionType.get_default_twitter_actions.
  do 2 apply list_elem_of_further. apply list_elem_of_here.
Defined.

(** ** Termination of the uniqueness loop *)

(** The uniqueness loop stops by itself after at most
    [max_attempts - attempts] iterations: from then on its guard is false,
    further iterations change nothing, and the attempt counter has not gone
    beyond [max_attempts]. *)
Theorem uniqueness_loop_terminates (used : gset Z)
    (min_time max_time max_attempts g attempts : Z) (fuel extra : nat) :
  (Z.to_nat (max_attempts - attempts) <= fuel)%nat ->
  probe_guard used max_attempts
    (probe fuel used min_time max_time max_attempts g attempts) = false /\
  probe (fuel + extra) used min_time max_time max_attempts g attempts =
    probe fuel used min_time max_time max_attempts g attempts /\
  (probe fuel used min_time max_time max_attempts g attempts).2
    <= Z.max attempts max_attempts.
Proof.
  intros Hfuel. split; [now apply probe_guard_false|].
  split; [now apply probe_fuel_enough|].
  clear Hfuel. revert g attempts.
  induction fuel as [|fuel IH]; intros g a; [simpl; lia|].
  rewrite probe_unfold. destruct (probe_guard used max_attempts (g, a)) eqn:G.
  - unfold probe_guard in G. apply andb_true_iff in G as [_ G].
    apply Z.ltb_lt in G. simpl in G.
    specialize (IH (next_candidate min_time max_time g) (a + 1)). lia.
  - simpl. lia.
Qed.

Lemma uniqueness_loop_terminates_witness :
  probe_guard {[ 0; 1 ]} 2 (probe 2 {[ 0; 1 ]} 0 1 2 1 0) = false /\
  probe (2 + 5) {[ 0; 1 ]} 0 1 2 1 0 = probe 2 {[ 0; 1 ]} 0 1 2 1 0 /\
  (probe 2 {[ 0; 1 ]} 0 1 2 1 0).2 <= Z.max 0 2.
Proof.
  apply (uniqueness_loop_terminates {[ 0; 1 ]} 0 1 2 1 0 2 5). simpl. lia.
Defined.

(** ** The inputs that decide a timestamp, in terms of the calls made *)

Section ValueDetermined.
Context {rt : PyRuntime}.



End ValueDetermined.


